(** * A WebSocket server written from scratch: the frame codec, the handshake
    and the per-connection frame loop of [server.py], embedded in Rocq.

    Python values are modelled as follows.
    - [bytes] and [bytearray] objects are lists of [Byte.byte].
    - [int] is [Z]; the bit operators [&], [|] and [^] are [Z.land], [Z.lor]
      and [Z.lxor].
    - [str] is the list of its code points; [encode_utf8] and [decode_utf8]
      are the strict UTF-8 codec behind [str.encode] and [bytes.decode].
    - An exception is a value of [exn]; every class listed there derives from
      [Exception], so [except Exception] catches all of them.
    - The methods of [WebSocketServer] run in the monad [M], which threads the
      mutable objects one handler thread can reach (the server object, the
      client socket, the locals of the frame loop) and keeps their state when
      an exception is raised. *)

From Stdlib Require Import String Ascii ZArith List Bool Lia.
From Stdlib Require Import Strings.Byte.
Import ListNotations.
Local Open Scope Z_scope.

(** ** Bytes *)

Definition bytes := list byte.

Definition byte_val (b : byte) : Z := Z.of_N (Byte.to_N b).

Definition byte_of (z : Z) : byte :=
  match Byte.of_N (Z.to_N z) with
  | Some b => b
  | None => x00
  end.

Definition len {A : Type} (l : list A) : Z := Z.of_nat (length l).

(** ** Strings *)

Definition str := list Z.

(** The code points of an ASCII literal of the source. *)
Definition lit (s : string) : str :=
  map (fun a => Z.of_N (N_of_ascii a)) (list_ascii_of_string s).

(** ** Exceptions and results *)

Inductive exn : Type :=
| Exception (msg : string)
| IndexError
| StructError
| ValueError
| TypeError
| OverflowError
| AttributeError
| UnicodeDecodeError
| UnicodeEncodeError.

Inductive result (A : Type) : Type :=
| Ok (a : A)
| Raise (e : exn).

Arguments Ok {A} a.
Arguments Raise {A} e.

Definition rbind {A B : Type} (r : result A) (f : A -> result B) : result B :=
  match r with
  | Ok a => f a
  | Raise e => Raise e
  end.

Fixpoint rmap {A B : Type} (f : A -> result B) (l : list A) : result (list B) :=
  match l with
  | [] => Ok []
  | a :: l' =>
      rbind (f a) (fun b => rbind (rmap f l') (fun bs => Ok (b :: bs)))
  end.

(** ** [struct.pack] and [struct.unpack], network byte order *)

(** The [n] low-order bytes of [v], most significant first. *)
Fixpoint be_bytes (n : nat) (v : Z) : bytes :=
  match n with
  | O => []
  | S k => byte_of (Z.shiftr v (8 * Z.of_nat k) mod 256) :: be_bytes k v
  end.

Definition be_value (bs : bytes) : Z :=
  fold_left (fun acc b => acc * 256 + byte_val b) bs 0.

(** [struct.pack] raises [struct.error] when the value does not fit the
    unsigned format. *)
Definition pack_uint (n : nat) (v : Z) : result bytes :=
  if (0 <=? v) && (v <? 2 ^ (8 * Z.of_nat n))
  then Ok (be_bytes n v)
  else Raise StructError.

(** [struct.unpack] raises [struct.error] unless the buffer has exactly the
    size of the format. *)
Definition unpack_uint (n : nat) (bs : bytes) : result Z :=
  if Nat.eqb (length bs) n then Ok (be_value bs) else Raise StructError.

Definition struct_pack_B (v : Z) : result bytes := pack_uint 1 v.
Definition struct_pack_H (v : Z) : result bytes := pack_uint 2 v.
Definition struct_pack_BH (a b : Z) : result bytes :=
  rbind (pack_uint 1 a) (fun x => rbind (pack_uint 2 b) (fun y => Ok (x ++ y))).
Definition struct_pack_BQ (a b : Z) : result bytes :=
  rbind (pack_uint 1 a) (fun x => rbind (pack_uint 8 b) (fun y => Ok (x ++ y))).
Definition struct_unpack_H (bs : bytes) : result Z := unpack_uint 2 bs.
Definition struct_unpack_Q (bs : bytes) : result Z := unpack_uint 8 bs.

(** ** The UTF-8 codec of [str.encode] and [bytes.decode]

    CPython's codec is strict: it accepts exactly the well-formed byte
    sequences of the Unicode standard (no overlong form, no surrogate, nothing
    above U+10FFFF) and raises [UnicodeDecodeError] on anything else;
    encoding a surrogate raises [UnicodeEncodeError]. *)

Definition is_cont (c : Z) : bool := (128 <=? c) && (c <=? 191).

Definition in_range (lo hi c : Z) : bool := (lo <=? c) && (c <=? hi).

(** The second byte allowed after the lead byte [c0] of a three-byte form. *)
Definition second3 (c0 c1 : Z) : bool :=
  if c0 =? 224 then in_range 160 191 c1
  else if c0 =? 237 then in_range 128 159 c1
  else is_cont c1.

(** The second byte allowed after the lead byte [c0] of a four-byte form. *)
Definition second4 (c0 c1 : Z) : bool :=
  if c0 =? 240 then in_range 144 191 c1
  else if c0 =? 244 then in_range 128 143 c1
  else is_cont c1.

Fixpoint decode_utf8 (b : bytes) : result str :=
  match b with
  | [] => Ok []
  | b0 :: r0 =>
      let c0 := byte_val b0 in
      if c0 <? 128 then rbind (decode_utf8 r0) (fun s => Ok (c0 :: s))
      else
        match r0 with
        | [] => Raise UnicodeDecodeError
        | b1 :: r1 =>
            let c1 := byte_val b1 in
            if in_range 194 223 c0 then
              if is_cont c1 then
                rbind (decode_utf8 r1)
                      (fun s => Ok ((c0 - 192) * 64 + (c1 - 128) :: s))
              else Raise UnicodeDecodeError
            else
              match r1 with
              | [] => Raise UnicodeDecodeError
              | b2 :: r2 =>
                  let c2 := byte_val b2 in
                  if in_range 224 239 c0 then
                    if second3 c0 c1 && is_cont c2 then
                      rbind (decode_utf8 r2)
                            (fun s => Ok ((c0 - 224) * 4096 + (c1 - 128) * 64
                                          + (c2 - 128) :: s))
                    else Raise UnicodeDecodeError
                  else
                    match r2 with
                    | [] => Raise UnicodeDecodeError
                    | b3 :: r3 =>
                        let c3 := byte_val b3 in
                        if in_range 240 244 c0 && second4 c0 c1
                           && is_cont c2 && is_cont c3 then
                          rbind (decode_utf8 r3)
                                (fun s => Ok ((c0 - 240) * 262144
                                              + (c1 - 128) * 4096
                                              + (c2 - 128) * 64
                                              + (c3 - 128) :: s))
                        else Raise UnicodeDecodeError
                    end
              end
        end
  end.

Definition encode_char (c : Z) : result bytes :=
  if in_range 0 127 c then Ok [byte_of c]
  else if in_range 128 2047 c then
    Ok [byte_of (192 + c / 64); byte_of (128 + c mod 64)]
  else if in_range 2048 55295 c || in_range 57344 65535 c then
    Ok [byte_of (224 + c / 4096); byte_of (128 + (c / 64) mod 64);
        byte_of (128 + c mod 64)]
  else if in_range 65536 1114111 c then
    Ok [byte_of (240 + c / 262144); byte_of (128 + (c / 4096) mod 64);
        byte_of (128 + (c / 64) mod 64); byte_of (128 + c mod 64)]
  else Raise UnicodeEncodeError.

Fixpoint encode_utf8 (s : str) : result bytes :=
  match s with
  | [] => Ok []
  | c :: s' =>
      rbind (encode_char c) (fun b =>
      rbind (encode_utf8 s') (fun bs => Ok (b ++ bs)))
  end.

(** ** The operations on [str] the handshake uses *)

Fixpoint starts_with (prefix s : str) : bool :=
  match prefix, s with
  | [], _ => true
  | _ :: _, [] => false
  | p :: prefix', c :: s' => (p =? c) && starts_with prefix' s'
  end.

(** [needle in s]. *)
Fixpoint contains (needle s : str) : bool :=
  starts_with needle s ||
  match s with
  | [] => false
  | _ :: s' => contains needle s'
  end.

(** The longest prefix of [s] without a line feed: what the greedy group of
    any characters matches, as the dot matches every character but the line
    feed. *)
Fixpoint dot_star (s : str) : str :=
  match s with
  | [] => []
  | c :: s' => if c =? 10 then [] else c :: dot_star s'
  end.

(** [re.search] for a pattern made of a literal [prefix] followed by the
    group of any characters: [None] when [prefix] does not occur in [s], and
    otherwise the group 1 of the leftmost match. *)
Fixpoint re_search (prefix s : str) : option str :=
  if starts_with prefix s then Some (dot_star (skipn (length prefix) s))
  else
    match s with
    | [] => None
    | _ :: s' => re_search prefix s'
    end.

(** [c.isspace()]: the characters [str.strip] removes. *)
Definition isspace (c : Z) : bool :=
  in_range 9 13 c || in_range 28 32 c || (c =? 133) || (c =? 160)
  || (c =? 5760) || in_range 8192 8202 c || (c =? 8232) || (c =? 8233)
  || (c =? 8239) || (c =? 8287) || (c =? 12288).

Fixpoint lstrip (s : str) : str :=
  match s with
  | [] => []
  | c :: s' => if isspace c then lstrip s' else s
  end.

Definition rstrip (s : str) : str := rev (lstrip (rev s)).

Definition strip (s : str) : str := rstrip (lstrip s).

(** [s.split(',')]: the pieces between the commas, at least one. *)
Fixpoint split_comma (s : str) : list str :=
  match s with
  | [] => [[]]
  | c :: s' =>
      if c =? 44 then [] :: split_comma s'
      else
        match split_comma s' with
        | [] => [[c]]
        | piece :: pieces => (c :: piece) :: pieces
        end
  end.

(** [sep.join(l)]. *)
Fixpoint join (sep : str) (l : list str) : str :=
  match l with
  | [] => []
  | [x] => x
  | x :: l' => x ++ sep ++ join sep l'
  end.

(** ** [hashlib.sha1] and [base64.b64encode]

    The two library functions [generate_accept_key] calls, written out from
    their standards (FIPS 180-4 and RFC 4648). *)

Module SHA1.

Definition w32 (x : Z) : Z := x mod 2 ^ 32.

Definition rotl (n x : Z) : Z :=
  w32 (Z.lor (Z.shiftl x n) (Z.shiftr x (32 - n))).

Definition lnot32 (x : Z) : Z := 2 ^ 32 - 1 - x.

(** Padding: the bit 1, zero bits up to 56 modulo 64 bytes, and the length
    of the message in bits on 8 bytes. *)
Definition pad (m : bytes) : bytes :=
  let l := len m in
  m ++ [byte_of 128]
    ++ repeat x00 (Z.to_nat ((55 - l) mod 64))
    ++ be_bytes 8 ((8 * l) mod 2 ^ 64).

(** The big-endian 32-bit words of a byte sequence. *)
Fixpoint words (b : bytes) : list Z :=
  match b with
  | b0 :: b1 :: b2 :: b3 :: r => be_value [b0; b1; b2; b3] :: words r
  | _ => []
  end.

Fixpoint blocks (fuel : nat) (w : list Z) : list (list Z) :=
  match fuel with
  | O => []
  | S k =>
      match w with
      | [] => []
      | _ :: _ => firstn 16 w :: blocks k (skipn 16 w)
      end
  end.

Definition f (t : nat) (b c d : Z) : Z :=
  if Nat.ltb t 20 then Z.lor (Z.land b c) (Z.land (lnot32 b) d)
  else if Nat.ltb t 40 then Z.lxor (Z.lxor b c) d
  else if Nat.ltb t 60 then
    Z.lor (Z.lor (Z.land b c) (Z.land b d)) (Z.land c d)
  else Z.lxor (Z.lxor b c) d.

Definition k (t : nat) : Z :=
  if Nat.ltb t 20 then 1518500249
  else if Nat.ltb t 40 then 1859775393
  else if Nat.ltb t 60 then 2400959708
  else 3395469782.

(** The message schedule as a window on its 16 latest words: the head is
    the word of the current round. *)
Definition next_window (w : list Z) : list Z :=
  let x := Z.lxor (Z.lxor (nth 13 w 0) (nth 8 w 0))
                  (Z.lxor (nth 2 w 0) (nth 0 w 0)) in
  tl w ++ [rotl 1 x].

Definition hash_state : Type := Z * Z * Z * Z * Z.

Fixpoint rounds (n : nat) (t : nat) (w : list Z) (v : hash_state)
  : hash_state :=
  match n with
  | O => v
  | S n' =>
      let '(a, b, c, d, e) := v in
      let temp := w32 (rotl 5 a + f t b c d + e + k t + nth 0 w 0) in
      rounds n' (S t) (next_window w) (temp, a, rotl 30 b, c, d)
  end.

Definition compress (h : hash_state) (block : list Z) : hash_state :=
  let '(h0, h1, h2, h3, h4) := h in
  let '(a, b, c, d, e) := rounds 80 0 block h in
  (w32 (h0 + a), w32 (h1 + b), w32 (h2 + c), w32 (h3 + d), w32 (h4 + e)).

Definition init : hash_state :=
  (1732584193, 4023233417, 2562383102, 271733878, 3285377520).

Definition digest (m : bytes) : bytes :=
  let w := words (pad m) in
  let '(h0, h1, h2, h3, h4) :=
    fold_left compress (blocks (length w) w) init in
  be_bytes 4 h0 ++ be_bytes 4 h1 ++ be_bytes 4 h2 ++ be_bytes 4 h3
    ++ be_bytes 4 h4.

End SHA1.

Module Base64.

Definition alphabet : str :=
  lit "ABCDEFGHIJKLMNOPQRSTUVWXYZabcdefghijklmnopqrstuvwxyz0123456789+/".

Definition char (i : Z) : byte := byte_of (nth (Z.to_nat i) alphabet 0).

Definition pad_char : byte := byte_of 61.

Fixpoint b64encode (b : bytes) : bytes :=
  match b with
  | [] => []
  | [b0] =>
      let n := byte_val b0 in
      [char (n / 4); char ((n mod 4) * 16); pad_char; pad_char]
  | [b0; b1] =>
      let n := byte_val b0 * 256 + byte_val b1 in
      [char (n / 1024); char ((n / 16) mod 64); char ((n mod 16) * 4);
       pad_char]
  | b0 :: b1 :: b2 :: r =>
      let n := byte_val b0 * 65536 + byte_val b1 * 256 + byte_val b2 in
      char (n / 262144) :: char ((n / 4096) mod 64)
        :: char ((n / 64) mod 64) :: char (n mod 64) :: b64encode r
  end.

End Base64.

(** ** The state one handler thread works on *)

Record state : Type := mkState {
  (** [self.extensions] and [self.subprotocols] of the server object. *)
  extensions : list str;
  subprotocols : list str;
  (** The client socket: what the client sends and the server has not read
      yet, in the pieces the transport delivers it in (the client closes its
      side after the last one); the arguments of the calls to
      [client_socket.send] so far; whether the socket has been closed. *)
  sock_in : list bytes;
  sock_out : list bytes;
  sock_closed : bool;
  (** The two locals of [handle_websocket_frames].  The bytearray is handed to
      the frame handlers by reference. *)
  fragmented_message : bytes;
  fragmented_opcode : option Z;
  (** Ghost state: the arguments of the calls to [handle_complete_message] so
      far. *)
  delivered : list (Z * bytes)
}.

Definition set_extensions (v : list str) (s : state) : state :=
  mkState v (subprotocols s) (sock_in s) (sock_out s) (sock_closed s)
          (fragmented_message s) (fragmented_opcode s) (delivered s).
Definition set_subprotocols (v : list str) (s : state) : state :=
  mkState (extensions s) v (sock_in s) (sock_out s) (sock_closed s)
          (fragmented_message s) (fragmented_opcode s) (delivered s).
Definition set_sock_in (v : list bytes) (s : state) : state :=
  mkState (extensions s) (subprotocols s) v (sock_out s) (sock_closed s)
          (fragmented_message s) (fragmented_opcode s) (delivered s).
Definition set_sock_out (v : list bytes) (s : state) : state :=
  mkState (extensions s) (subprotocols s) (sock_in s) v (sock_closed s)
          (fragmented_message s) (fragmented_opcode s) (delivered s).
Definition set_sock_closed (v : bool) (s : state) : state :=
  mkState (extensions s) (subprotocols s) (sock_in s) (sock_out s) v
          (fragmented_message s) (fragmented_opcode s) (delivered s).
Definition set_fragmented_message (v : bytes) (s : state) : state :=
  mkState (extensions s) (subprotocols s) (sock_in s) (sock_out s)
          (sock_closed s) v (fragmented_opcode s) (delivered s).
Definition set_fragmented_opcode (v : option Z) (s : state) : state :=
  mkState (extensions s) (subprotocols s) (sock_in s) (sock_out s)
          (sock_closed s) (fragmented_message s) v (delivered s).
Definition set_delivered (v : list (Z * bytes)) (s : state) : state :=
  mkState (extensions s) (subprotocols s) (sock_in s) (sock_out s)
          (sock_closed s) (fragmented_message s) (fragmented_opcode s) v.

(** ** The monad of the server's methods *)

Definition M (A : Type) : Type := state -> result A * state.

Definition ret {A : Type} (a : A) : M A := fun s => (Ok a, s).

Definition raise {A : Type} (e : exn) : M A := fun s => (Raise e, s).

Definition bind {A B : Type} (m : M A) (f : A -> M B) : M B :=
  fun s =>
    match m s with
    | (Ok a, s') => f a s'
    | (Raise e, s') => (Raise e, s')
    end.

Definition lift {A : Type} (r : result A) : M A := fun s => (r, s).

Definition get {A : Type} (proj : state -> A) : M A := fun s => (Ok (proj s), s).

Definition modify (f : state -> state) : M unit := fun s => (Ok tt, f s).

Declare Scope monad_scope.
Delimit Scope monad_scope with monad.
Notation "x <- m ;; k" := (bind m (fun x => k))
  (at level 61, m at next level, right associativity) : monad_scope.
Notation "m ;; k" := (bind m (fun _ => k))
  (at level 61, right associativity) : monad_scope.
Local Open Scope monad_scope.

(** ** The socket *)

(** [sys.maxsize] of 64-bit CPython: the largest size [recv] accepts. *)
Definition ssize_max : Z := 2 ^ 63 - 1.

(** One read of at most [n] bytes: it returns bytes of the first piece that is
    not empty and leaves the others, and it returns nothing once every piece
    has been read.  A read of no byte returns at once. *)
Fixpoint recv_from (n : nat) (pieces : list bytes) : bytes * list bytes :=
  match n, pieces with
  | O, _ => ([], pieces)
  | _, [] => ([], [])
  | _, [] :: rest => recv_from n rest
  | _, piece :: rest => (firstn n piece, skipn n piece :: rest)
  end.

(** [client_socket.recv(bufsize)]: a single read, which may return fewer
    bytes than [bufsize], and the empty bytes object once the client has
    closed its side.  A [bufsize] that does not fit [Py_ssize_t] raises
    [OverflowError], a negative one [ValueError].  Memory is not bounded in
    the model. *)
Definition recv (bufsize : Z) : M bytes :=
  fun s =>
    if bufsize >? ssize_max then (Raise OverflowError, s)
    else if bufsize <? 0 then (Raise ValueError, s)
    else
      let (data, rest) := recv_from (Z.to_nat bufsize) (sock_in s) in
      (Ok data, set_sock_in rest s).

(** [client_socket.send(data)]; the transport takes every write. *)
Definition send (data : bytes) : M unit :=
  modify (fun s => set_sock_out (sock_out s ++ [data]) s).

(** [client_socket.close()]. *)
Definition close (s : state) : state := set_sock_closed true s.

(** [b[i]] on a bytes object, as an integer. *)
Definition index (b : bytes) (i : nat) : result Z :=
  match nth_error b i with
  | Some x => Ok (byte_val x)
  | None => Raise IndexError
  end.

(** ** The frame codec *)

Record frame : Type := mkFrame {
  fin : bool;
  opcode : Z;
  mask : bool;
  payload_length : Z;
  payload : bytes
}.

(** [masking_key] is [None] for a frame that is not masked; subscripting
    [None] raises [TypeError]. *)
Definition unmask_payload (payload : bytes) (masking_key : option bytes)
  : result bytes :=
  rmap (fun i =>
          rbind (index payload i) (fun p =>
          rbind (match masking_key with
                 | Some key => index key (Nat.modulo i 4)
                 | None => Raise TypeError
                 end) (fun k =>
          Ok (byte_of (Z.lxor p k)))))
       (seq 0 (length payload)).

Definition receive_frame : M frame :=
  header <- recv 2 ;;
  match header with
  | [] => raise (Exception "Client closed connection")
  | _ :: _ =>
      h0 <- lift (index header 0) ;;
      let fin := negb (Z.land h0 128 =? 0) in
      let opcode := Z.land h0 15 in
      h1 <- lift (index header 1) ;;
      let mask := negb (Z.land h1 128 =? 0) in
      let payload_length := Z.land h1 127 in
      payload_length <-
        (if payload_length =? 126 then
           b <- recv 2 ;; lift (struct_unpack_H b)
         else if payload_length =? 127 then
           b <- recv 8 ;; lift (struct_unpack_Q b)
         else ret payload_length) ;;
      masking_key <-
        (if mask then k <- recv 4 ;; ret (Some k) else ret None) ;;
      payload <- recv payload_length ;;
      payload <-
        (if mask then lift (unmask_payload payload masking_key)
         else ret payload) ;;
      ret (mkFrame fin opcode mask payload_length payload)
  end.

Definition send_frame (payload : bytes) (opcode : Z) : M unit :=
  header <- lift (struct_pack_B (Z.lor 128 opcode)) ;;
  let length := len payload in
  header <-
    (if length <=? 125 then
       h <- lift (struct_pack_B length) ;; ret (header ++ h)
     else if length <=? 65535 then
       h <- lift (struct_pack_BH 126 length) ;; ret (header ++ h)
     else
       h <- lift (struct_pack_BQ 127 length) ;; ret (header ++ h)) ;;
  send (header ++ payload).

Definition send_text_frame (message : str) : M unit :=
  data <- lift (encode_utf8 message) ;;
  send_frame data 1.

Definition send_binary_frame (data : bytes) : M unit := send_frame data 2.

Definition send_ping_frame (data : bytes) : M unit := send_frame data 9.

Definition send_pong_frame (data : bytes) : M unit := send_frame data 10.

Definition send_close_frame (code : Z) (reason : str) : M unit :=
  head <- lift (struct_pack_H code) ;;
  tail <- lift (encode_utf8 reason) ;;
  send_frame (head ++ tail) 8.

(** ** The handshake *)

Definition GUID : str := lit "258EAFA5-E914-47DA-95CA-C5AB0DC85B11".

Definition generate_accept_key (key : str) : result str :=
  let hash_key := key ++ GUID in
  rbind (encode_utf8 hash_key) (fun encoded =>
  let sha1 := SHA1.digest encoded in
  decode_utf8 (Base64.b64encode sha1)).

Definition crlf : str := [13; 10].

Definition handshake : M unit :=
  raw <- recv 1024 ;;
  data <- lift (decode_utf8 raw) ;;
  if contains (lit "Upgrade: websocket") data
     && contains (lit "Connection: Upgrade") data
  then
    (* [re.search] gives [None] without a match, and [None.group] raises. *)
    key <- match re_search (lit "Sec-WebSocket-Key: ") data with
           | Some group1 => ret (strip group1)
           | None => raise AttributeError
           end ;;
    response_key <- lift (generate_accept_key key) ;;
    let extensions_match := re_search (lit "Sec-WebSocket-Extensions: ") data in
    let subprotocols_match := re_search (lit "Sec-WebSocket-Protocol: ") data in
    let response :=
      lit "HTTP/1.1 101 Switching Protocols" ++ crlf
      ++ lit "Upgrade: websocket" ++ crlf
      ++ lit "Connection: Upgrade" ++ crlf
      ++ lit "Sec-WebSocket-Accept: " ++ response_key ++ crlf in
    response <-
      match extensions_match with
      | Some group1 =>
          modify (set_extensions (map strip (split_comma group1))) ;;
          self_extensions <- get extensions ;;
          ret (response ++ lit "Sec-WebSocket-Extensions: "
                        ++ join (lit ", ") self_extensions ++ crlf)
      | None => ret response
      end ;;
    response <-
      match subprotocols_match with
      | Some group1 =>
          modify (set_subprotocols (map strip (split_comma group1))) ;;
          self_subprotocols <- get subprotocols ;;
          match self_subprotocols with
          | first :: _ =>
              ret (response ++ lit "Sec-WebSocket-Protocol: " ++ first ++ crlf)
          | [] => raise IndexError
          end
      | None => ret response
      end ;;
    let response := response ++ crlf in
    encoded <- lift (encode_utf8 response) ;;
    send encoded
  else raise (Exception "Invalid WebSocket upgrade request").

(** ** The frame handlers *)

(** The calls to [print] write to the console of the server and are left
    out.  The ghost field [delivered] records each call. *)
Definition handle_complete_message (opcode : Z) (payload : bytes) : M unit :=
  modify (fun s => set_delivered (delivered s ++ [(opcode, payload)]) s) ;;
  if opcode =? 1 then
    message <- lift (decode_utf8 payload) ;;
    send_text_frame message
  else if opcode =? 2 then
    send_binary_frame payload
  else ret tt.

(** The parameter [fragmented_message] of the source is the bytearray of the
    frame loop itself, so [extend] acts on the field of the state. *)
Definition handle_continuation_frame (frame : frame)
    (fragmented_opcode : option Z) : M unit :=
  match fragmented_opcode with
  | None => raise (Exception "Received continuation frame without start frame")
  | Some started =>
      modify (fun s =>
                set_fragmented_message (fragmented_message s ++ payload frame) s) ;;
      if fin frame then
        message <- get fragmented_message ;;
        handle_complete_message started message
      else ret tt
  end.

Definition handle_data_frame (frame : frame) (fragmented_opcode : option Z)
  : M unit :=
  match fragmented_opcode with
  | Some _ =>
      raise (Exception
               "Received new data frame before completing fragmented message")
  | None =>
      if fin frame then handle_complete_message (opcode frame) (payload frame)
      else ret tt
  end.

Definition handle_close_frame (frame : frame) : M unit :=
  if len (payload frame) >=? 2 then
    code <- lift (struct_unpack_H (firstn 2 (payload frame))) ;;
    reason <- lift (decode_utf8 (skipn 2 (payload frame))) ;;
    send_close_frame code reason
  else send_close_frame 1000 [].

Definition handle_ping_frame (frame : frame) : M unit :=
  send_pong_frame (payload frame).

Definition handle_pong_frame (frame : frame) : M unit := ret tt.

(** ** The frame loop *)

(** What the [try] block does with a received frame; [true] stands for
    [break]. *)
Definition dispatch (frame : frame) : M bool :=
  if opcode frame =? 0 then
    started <- get fragmented_opcode ;;
    handle_continuation_frame frame started ;;
    (if fin frame then
       modify (set_fragmented_message []) ;;
       modify (set_fragmented_opcode None)
     else ret tt) ;;
    ret false
  else if (opcode frame =? 1) || (opcode frame =? 2) then
    started <- get fragmented_opcode ;;
    handle_data_frame frame started ;;
    (if negb (fin frame) then
       modify (set_fragmented_opcode (Some (opcode frame))) ;;
       modify (set_fragmented_message (payload frame))
     else ret tt) ;;
    ret false
  else if opcode frame =? 8 then
    handle_close_frame frame ;;
    ret true
  else if opcode frame =? 9 then
    handle_ping_frame frame ;;
    ret false
  else if opcode frame =? 10 then
    handle_pong_frame frame ;;
    ret false
  else raise (Exception "Unsupported opcode").

(** The [except] clause of the loop. *)
Definition on_exception : M bool :=
  send_close_frame 1002 (lit "Protocol error") ;;
  ret true.

(** What happens to a frame once [receive_frame] has returned it. *)
Definition on_frame (frame : frame) : M bool :=
  fun s =>
    match dispatch frame s with
    | (Ok stop, s') => (Ok stop, s')
    | (Raise _, s') => on_exception s'
    end.

(** One pass through the body of [while True]. *)
Definition iteration : M bool :=
  fun s =>
    match receive_frame s with
    | (Ok frame, s') => on_frame frame s'
    | (Raise _, s') => on_exception s'
    end.

(** The loop; it has no result when [fuel] passes do not reach its end. *)
Fixpoint frame_loop (fuel : nat) (s : state) : option (result unit * state) :=
  match fuel with
  | O => None
  | S fuel' =>
      match iteration s with
      | (Ok true, s') => Some (Ok tt, s')
      | (Ok false, s') => frame_loop fuel' s'
      | (Raise e, s') => Some (Raise e, s')
      end
  end.

Definition handle_websocket_frames (fuel : nat) (s : state)
  : option (result unit * state) :=
  frame_loop fuel (set_fragmented_opcode None (set_fragmented_message [] s)).

(** [handle_client]: every exception is caught, and the [finally] clause
    closes the socket. *)
Definition handle_client (fuel : nat) (s : state) : option state :=
  match handshake s with
  | (Ok _, s1) =>
      match handle_websocket_frames fuel s1 with
      | Some (_, s2) => Some (close s2)
      | None => None
      end
  | (Raise _, s1) => Some (close s1)
  end.

(** A fresh connection to a server whose object holds [exts] and [protos];
    the client sends [input]. *)
Definition connect (exts protos : list str) (input : list bytes) : state :=
  mkState exts protos input [] false [] None [].

(** ** Notions used in the statements *)

Fixpoint bytes_eqb (a b : bytes) : bool :=
  match a, b with
  | [], [] => true
  | x :: a', y :: b' => Byte.eqb x y && bytes_eqb a' b'
  | _, _ => false
  end.

Definition frame_eqb (f g : frame) : bool :=
  Bool.eqb (fin f) (fin g) && (opcode f =? opcode g)
  && Bool.eqb (mask f) (mask g) && (payload_length f =? payload_length g)
  && bytes_eqb (payload f) (payload g).

(** The bytes [send_frame] writes for a payload of [length] bytes. *)
Definition wire_header (opcode length : Z) : bytes :=
  byte_of (Z.lor 128 opcode)
  :: (if length <=? 125 then [byte_of length]
      else if length <=? 65535 then byte_of 126 :: be_bytes 2 length
      else byte_of 127 :: be_bytes 8 length).

(** [send_frame payload opcode] writes one frame, and [receive_frame], reading
    a stream that holds that frame, returns the triple [fin], [opcode],
    [payload], not masked. *)
Definition round_trips (fin : bool) (opcode : Z) (payload : bytes) : bool :=
  match send_frame payload opcode (connect [] [] []) with
  | (Ok _, sent) =>
      match sock_out sent with
      | [wire] =>
          match receive_frame (connect [] [] [wire]) with
          | (Ok f, _) =>
              frame_eqb f (mkFrame fin opcode false (len payload) payload)
          | (Raise _, _) => false
          end
      | _ => false
      end
  | (Raise _, _) => false
  end.

(** Bytes that are all ASCII. *)
Definition ascii_bytes (b : bytes) : Prop := Forall (fun x => byte_val x < 128) b.

(** The number of bytes the client still sends. *)
Definition pending_bytes (s : state) : nat := length (concat (sock_in s)).

(** [n] passes through the loop body, none of which leaves the loop. *)
Fixpoint passes (n : nat) (s : state) : option state :=
  match n with
  | O => Some s
  | S n' =>
      match iteration s with
      | (Ok false, s') => passes n' s'
      | _ => None
      end
  end.

(** The next frames on the wire: what successive calls to [receive_frame]
    return. *)
Fixpoint receive_frames (n : nat) : M (list frame) :=
  match n with
  | O => ret []
  | S n' =>
      f <- receive_frame ;;
      fs <- receive_frames n' ;;
      ret (f :: fs)
  end.

(** A computation that only reads from the socket: its result depends on the
    pending input alone, and the pending input is all it changes. *)
Definition reader {A : Type} (m : M A) : Prop :=
  forall s t : state,
    sock_in t = sock_in s ->
    m t = (fst (m s), set_sock_in (sock_in (snd (m s))) t).

(** A Close frame as it goes on the wire: the status code on two bytes, then
    the reason. *)
Definition close_frame (code : Z) (reason : bytes) : bytes :=
  wire_header 8 (2 + len reason) ++ be_bytes 2 code ++ reason.

(** The status code and the bytes of the reason in the payload of a Close
    frame; 1000 and no reason when the payload has fewer than two bytes. *)
Definition parse_close (payload : bytes) : Z * bytes :=
  if len payload >=? 2 then (be_value (firstn 2 payload), skipn 2 payload)
  else (1000, []).

Definition protocol_error : bytes := map byte_of (lit "Protocol error").

(** The state after at most [n] passes through the loop body, the last of
    which may have left the loop. *)
Fixpoint after_passes (n : nat) (s : state) : state :=
  match n with
  | O => s
  | S n' =>
      match iteration s with
      | (Ok false, s') => after_passes n' s'
      | (_, s') => s'
      end
  end.

(** An upgrade request as a client sends it: the request line, the two
    headers of an upgrade, the headers [extra], and the empty line. *)
Definition upgrade_request (extra : list str) : bytes :=
  map byte_of
      (concat (map (fun line => line ++ crlf)
                   ([lit "GET /chat HTTP/1.1"; lit "Host: localhost:8765";
                     lit "Upgrade: websocket"; lit "Connection: Upgrade"]
                      ++ extra))
       ++ crlf).

(** The lines of a request: the text cut at every line feed. *)
Fixpoint request_lines (s : str) : list str :=
  match s with
  | [] => [[]]
  | c :: s' =>
      if c =? 10 then [] :: request_lines s'
      else
        match request_lines s' with
        | [] => [[c]]
        | line :: rest => (c :: line) :: rest
        end
  end.

(** A request holds a header [name], as the specification speaks of it, when
    one of its lines starts with the name and a colon.  The code has no such
    notion: it searches the whole text of the request. *)
Definition has_header (name data : str) : bool :=
  existsb (starts_with (name ++ lit ":")) (request_lines data).

(** The masking a client applies: byte [i] of the payload is combined by
    exclusive or with byte [i mod 4] of the key. *)
Definition mask_with (key payload : bytes) : bytes :=
  map (fun ip => byte_of (Z.lxor (byte_val (snd ip))
                                 (byte_val (nth (Nat.modulo (fst ip) 4) key x00))))
      (combine (seq 0 (length payload)) payload).

(** A frame as a client puts it on the wire: the fin bit and the opcode, the
    mask bit and the length in the same three forms as [send_frame], the
    masking key, and the payload masked with it. *)
Definition client_frame (fin : bool) (opcode : Z) (key payload : bytes)
  : bytes :=
  let length := len payload in
  byte_of ((if fin then 128 else 0) + opcode)
  :: (if length <=? 125 then [byte_of (128 + length)]
      else if length <=? 65535 then byte_of 254 :: be_bytes 2 length
      else byte_of 255 :: be_bytes 8 length)
  ++ key ++ mask_with key payload.

(** A computation that does not read from the socket. *)
Definition quiet {A : Type} (m : M A) : Prop :=
  forall s : state, sock_in (snd (m s)) = sock_in s.

(** A computation that adds nothing to what the client still sends. *)
Definition shrinks {A : Type} (m : M A) : Prop :=
  forall s : state, (pending_bytes (snd (m s)) <= pending_bytes s)%nat.

(** A computation that writes nothing to the socket. *)
Definition silent {A : Type} (m : M A) : Prop :=
  forall s : state, sock_out (snd (m s)) = sock_out s.

(** A code point [str.encode] accepts. *)
Definition encodable (c : Z) : Prop := exists b, encode_char c = Ok b.


(** The shape of the reassembly state between two passes: either no message
    is open and the buffer is empty, or a Text or a Binary message is open. *)
Definition pending_ok (s : state) : Prop :=
  (fragmented_opcode s = None /\ fragmented_message s = [])
  \/ fragmented_opcode s = Some 1
  \/ fragmented_opcode s = Some 2.

(** A computation that leaves the reassembly state alone. *)
Definition keeps_pending {A : Type} (m : M A) : Prop :=
  forall s : state,
    fragmented_opcode (snd (m s)) = fragmented_opcode s
    /\ fragmented_message (snd (m s)) = fragmented_message s.

(** A computation that writes at most one chunk, and none when it raises. *)
Definition sends_last {A : Type} (m : M A) : Prop :=
  forall s : state,
    match m s with
    | (Ok _, s') =>
        sock_out s' = sock_out s \/ exists chunk, sock_out s' = sock_out s ++ [chunk]
    | (Raise _, s') => sock_out s' = sock_out s
    end.

(** A computation that always returns. *)
Definition returns {A : Type} (m : M A) : Prop :=
  forall s : state, exists a s', m s = (Ok a, s').

(** * Properties *)

(** ** The library functions, on the test vectors of their standards *)

Example sha1_abc :
  SHA1.digest (map byte_of (lit "abc"))
  = map byte_of [169; 153; 62; 54; 71; 6; 129; 106; 186; 62;
                 37; 113; 120; 80; 194; 108; 156; 208; 216; 157].
Proof. vm_compute. reflexivity. Qed.

Example accept_key_rfc :
  generate_accept_key (lit "dGhlIHNhbXBsZSBub25jZQ==")
  = Ok (lit "s3pPLMBiTxaQ9kYGzzhZRbK+xOo=").
Proof. vm_compute. reflexivity. Qed.

(** ** Bytes and integers *)

Lemma byte_val_range (b : byte) : 0 <= byte_val b < 256.
Proof.
  unfold byte_val. pose proof (Byte.to_N_bounded b). lia.
Qed.

Lemma byte_of_val (b : byte) : byte_of (byte_val b) = b.
Proof.
  unfold byte_of, byte_val. rewrite N2Z.id, Byte.of_to_N. reflexivity.
Qed.

Lemma byte_val_of (z : Z) : 0 <= z < 256 -> byte_val (byte_of z) = z.
Proof.
  intros Hz. unfold byte_of, byte_val.
  destruct (Byte.of_N (Z.to_N z)) as [b|] eqn:E.
  - apply Byte.to_of_N in E. rewrite E. lia.
  - apply Byte.of_N_None_iff in E. lia.
Qed.

Lemma be_value_app (a b : bytes) :
  be_value (a ++ b) = be_value a * 256 ^ len b + be_value b.
Proof.
  unfold be_value, len.
  assert (G : forall (l : bytes) (x y : Z),
             fold_left (fun acc c => acc * 256 + byte_val c) l (x + y)
             = x * 256 ^ Z.of_nat (length l)
               + fold_left (fun acc c => acc * 256 + byte_val c) l y).
  { induction l as [|c l IH]; intros x y.
    - simpl. ring.
    - cbn [fold_left length].
      replace ((x + y) * 256 + byte_val c)
        with (x * 256 + (y * 256 + byte_val c)) by ring.
      rewrite IH, Nat2Z.inj_succ, Z.pow_succ_r by lia. ring. }
  rewrite fold_left_app.
  specialize (G b (fold_left (fun acc c => acc * 256 + byte_val c) a 0) 0).
  rewrite Z.add_0_r in G. exact G.
Qed.

Lemma be_bytes_length (n : nat) (v : Z) : length (be_bytes n v) = n.
Proof. induction n; simpl; congruence. Qed.

Lemma be_value_bytes (n : nat) (v : Z) :
  0 <= v -> be_value (be_bytes n v) = v mod 256 ^ Z.of_nat n.
Proof.
  intros Hv. induction n as [|n IH].
  - simpl. rewrite Z.mod_1_r. reflexivity.
  - change (be_bytes (S n) v)
      with ([byte_of (Z.shiftr v (8 * Z.of_nat n) mod 256)] ++ be_bytes n v).
    rewrite be_value_app, IH. unfold len. rewrite be_bytes_length.
    unfold be_value at 1. cbn [fold_left]. rewrite Z.mul_0_l, Z.add_0_l.
    rewrite byte_val_of by (apply Z.mod_pos_bound; lia).
    rewrite Z.shiftr_div_pow2 by lia.
    replace (2 ^ (8 * Z.of_nat n)) with (256 ^ Z.of_nat n)
      by (rewrite Z.pow_mul_r by lia; reflexivity).
    rewrite Nat2Z.inj_succ, Z.pow_succ_r by lia.
    assert (P : 0 < 256 ^ Z.of_nat n) by (apply Z.pow_pos_nonneg; lia).
    rewrite (Z.mul_comm 256), Z.rem_mul_r by lia. ring.
Qed.

Lemma unpack_pack (n : nat) (v : Z) (b : bytes) :
  pack_uint n v = Ok b -> unpack_uint n b = Ok v.
Proof.
  unfold pack_uint, unpack_uint. intros H.
  destruct (0 <=? v) eqn:E1; [|discriminate].
  destruct (v <? 2 ^ (8 * Z.of_nat n)) eqn:E2; [|discriminate].
  simpl in H. injection H as <-.
  rewrite be_bytes_length, Nat.eqb_refl. f_equal.
  rewrite be_value_bytes by lia.
  apply Z.mod_small. rewrite Z.pow_mul_r in E2 by lia. change (2 ^ 8) with 256 in E2. lia.
Qed.

Lemma len_nonneg {A : Type} (l : list A) : 0 <= len l.
Proof. unfold len. lia. Qed.

Lemma len_app {A : Type} (a b : list A) : len (a ++ b) = len a + len b.
Proof. unfold len. rewrite length_app. lia. Qed.

Lemma be_bytes_1 (v : Z) : 0 <= v < 256 -> be_bytes 1 v = [byte_of v].
Proof.
  intros H. cbn [be_bytes Z.of_nat Z.mul]. rewrite Z.shiftr_0_r, Z.mod_small by lia.
  reflexivity.
Qed.

Lemma lor_128_range (opcode : Z) :
  (0 <=? Z.lor 128 opcode) && (Z.lor 128 opcode <? 256)
  = (0 <=? opcode) && (opcode <? 256).
Proof.
  destruct (Z.leb_spec 0 opcode) as [Hp|Hn].
  - assert (H0 : 0 <= Z.lor 128 opcode) by (apply Z.lor_nonneg; lia).
    destruct (Z.leb_spec 0 (Z.lor 128 opcode)); [|lia]. cbn [andb].
    destruct (Z.eq_dec opcode 0) as [->|Hnz]; [reflexivity|].
    assert (L : Z.log2 (Z.lor 128 opcode) = Z.max 7 (Z.log2 opcode))
      by (rewrite Z.log2_lor by lia; reflexivity).
    destruct (Z.ltb_spec opcode 256) as [Hlt|Hge].
    + apply Z.ltb_lt. apply (Z.log2_lt_pow2 _ 8); [|].
      * assert (Z.testbit (Z.lor 128 opcode) 7 = true)
          by (rewrite Z.lor_spec; reflexivity).
        destruct (Z.eq_dec (Z.lor 128 opcode) 0) as [E|E]; [|lia].
        rewrite E in H1. discriminate.
      * rewrite L. assert (Z.log2 opcode < 8) by (apply Z.log2_lt_pow2; lia). lia.
    + apply Z.ltb_ge. assert (8 <= Z.log2 opcode) by (apply Z.log2_le_pow2; lia).
      assert (2 ^ Z.log2 (Z.lor 128 opcode) <= Z.lor 128 opcode).
      { apply Z.log2_spec. assert (Z.lor 128 opcode <> 0) by
          (intros E; apply Z.lor_eq_0_iff in E; lia). lia. }
      assert (2 ^ 8 <= 2 ^ Z.log2 (Z.lor 128 opcode))
        by (apply Z.pow_le_mono_r; lia).
      change (2 ^ 8) with 256 in *. lia.
  - assert (H0 : Z.lor 128 opcode < 0) by (apply Z.lor_neg; lia).
    destruct (Z.leb_spec 0 (Z.lor 128 opcode)); [lia|]. reflexivity.
Qed.

(** What [send_frame] does, in one equation. *)
Lemma send_frame_eq (payload : bytes) (opcode : Z) (s : state) :
  send_frame payload opcode s =
  if (0 <=? opcode) && (opcode <? 256) && (len payload <? 2 ^ 64)
  then (Ok tt,
        set_sock_out
          (sock_out s ++ [wire_header opcode (len payload) ++ payload]) s)
  else (Raise StructError, s).
Proof.
  pose proof (len_nonneg payload) as Hl.
  rewrite <- lor_128_range.
  unfold send_frame, bind, lift, struct_pack_B, struct_pack_BH, struct_pack_BQ.
  unfold pack_uint at 1. change (2 ^ (8 * Z.of_nat 1)) with 256.
  destruct ((0 <=? Z.lor 128 opcode) && (Z.lor 128 opcode <? 256)) eqn:Eop;
    [|reflexivity].
  apply andb_prop in Eop. destruct Eop as [E1 E2].
  apply Z.leb_le in E1. apply Z.ltb_lt in E2.
  rewrite be_bytes_1 by lia. cbn [andb].
  unfold wire_header, ret, send, modify, rbind, pack_uint.
  change (2 ^ (8 * Z.of_nat 1)) with 256.
  change (2 ^ (8 * Z.of_nat 2)) with 65536.
  change (2 ^ (8 * Z.of_nat 8)) with (2 ^ 64).
  destruct (Z.leb_spec (len payload) 125).
  - destruct (Z.leb_spec 0 (len payload)); [|lia].
    destruct (Z.ltb_spec (len payload) 256); [|lia].
    destruct (Z.ltb_spec (len payload) (2 ^ 64)); [|lia].
    cbn [andb]. rewrite be_bytes_1 by lia. reflexivity.
  - destruct (Z.leb_spec (len payload) 65535).
    + destruct (Z.leb_spec 0 (len payload)); [|lia].
      destruct (Z.ltb_spec (len payload) 65536); [|lia].
      destruct (Z.ltb_spec (len payload) (2 ^ 64)); [|lia].
      cbn [andb Z.leb Z.ltb Z.compare Pos.compare Pos.compare_cont].
      rewrite be_bytes_1 by lia. reflexivity.
    + destruct (Z.ltb_spec (len payload) (2 ^ 64)).
      * destruct (Z.leb_spec 0 (len payload)); [|lia].
        cbn [andb Z.leb Z.ltb Z.compare Pos.compare Pos.compare_cont].
        rewrite be_bytes_1 by lia. reflexivity.
      * destruct (Z.leb_spec 0 (len payload)); [|lia].
        cbn [andb Z.leb Z.ltb Z.compare Pos.compare Pos.compare_cont].
        reflexivity.
Qed.

(** ** Reading from the socket *)

Lemma recv_from_app (a b : bytes) (rest : list bytes) :
  recv_from (length a) ((a ++ b) :: rest) = (a, b :: rest).
Proof.
  destruct a as [|x a]; [reflexivity|].
  cbn [length recv_from app]. cbn [firstn skipn].
  rewrite firstn_app, skipn_app, Nat.sub_diag, firstn_all, skipn_all.
  cbn [firstn skipn app]. rewrite app_nil_r. reflexivity.
Qed.

Lemma recv_app (n : Z) (a b : bytes) (rest : list bytes) (s : state) :
  len a = n -> n <= ssize_max -> sock_in s = (a ++ b) :: rest ->
  recv n s = (Ok a, set_sock_in (b :: rest) s).
Proof.
  intros Hn Hmax Hin. unfold recv.
  pose proof (len_nonneg a).
  destruct (Z.gtb_spec n ssize_max); [lia|].
  destruct (Z.ltb_spec n 0); [lia|].
  rewrite Hin. subst n. unfold len. rewrite Nat2Z.id, recv_from_app.
  reflexivity.
Qed.

Lemma set_sock_in_twice (a b : list bytes) (s : state) :
  set_sock_in a (set_sock_in b s) = set_sock_in a s.
Proof. reflexivity. Qed.

Lemma sock_in_set (a : list bytes) (s : state) : sock_in (set_sock_in a s) = a.
Proof. reflexivity. Qed.

Lemma land_128_of_lor (opcode : Z) :
  0 <= opcode <= 15 -> Z.land (Z.lor 128 opcode) 128 = 128
                       /\ Z.land (Z.lor 128 opcode) 15 = opcode.
Proof.
  intros H.
  assert (C : opcode = 0 \/ opcode = 1 \/ opcode = 2 \/ opcode = 3
              \/ opcode = 4 \/ opcode = 5 \/ opcode = 6 \/ opcode = 7
              \/ opcode = 8 \/ opcode = 9 \/ opcode = 10 \/ opcode = 11
              \/ opcode = 12 \/ opcode = 13 \/ opcode = 14 \/ opcode = 15)
    by lia.
  repeat (destruct C as [->|C]; [split; reflexivity|]).
  subst. split; reflexivity.
Qed.

Lemma land_127_small (n : Z) : 0 <= n < 128 ->
  Z.land n 128 = 0 /\ Z.land n 127 = n.
Proof.
  intros H. split.
  - apply Z.bits_inj'. intros i Hi. rewrite Z.land_spec, Z.bits_0.
    destruct (Z.eq_dec i 7) as [->|Hne].
    + destruct (Z.eq_dec n 0) as [->|Hnz]; [reflexivity|].
      rewrite Z.bits_above_log2; [reflexivity|lia|].
      apply Z.log2_lt_pow2; [lia|]. change (2 ^ 7) with 128. lia.
    + change 128 with (2 ^ 7). rewrite Z.pow2_bits_false by lia.
      apply andb_false_r.
  - change 127 with (Z.ones 7). rewrite Z.land_ones by lia.
    apply Z.mod_small. change (2 ^ 7) with 128. lia.
Qed.

(** Reading back a frame [send_frame] wrote. *)
Lemma receive_frame_wire (payload more : bytes) (opcode : Z)
    (rest : list bytes) (s : state) :
  0 <= opcode <= 15 -> len payload <= ssize_max ->
  sock_in s = (wire_header opcode (len payload) ++ payload ++ more) :: rest ->
  receive_frame s
  = (Ok (mkFrame true opcode false (len payload) payload),
     set_sock_in (more :: rest) s).
Proof.
  intros Hop Hmax Hin.
  pose proof (len_nonneg payload) as Hl.
  destruct (land_128_of_lor opcode Hop) as [Hfin Hopc].
  assert (Hb0 : byte_val (byte_of (Z.lor 128 opcode)) = Z.lor 128 opcode).
  { apply byte_val_of.
    pose proof (lor_128_range opcode) as R.
    destruct (Z.leb_spec 0 opcode); [|lia].
    destruct (Z.ltb_spec opcode 256); [|lia].
    apply andb_prop in R. destruct R as [R1 R2].
    apply Z.leb_le in R1. apply Z.ltb_lt in R2. lia. }
  unfold ssize_max in Hmax.
  unfold receive_frame, bind at 1.
  unfold wire_header in Hin.
  destruct (Z.leb_spec (len payload) 125) as [H125|H125].
  - (* the length fits the second byte *)
    rewrite (recv_app 2 [byte_of (Z.lor 128 opcode); byte_of (len payload)]
               (payload ++ more) rest s eq_refl) by (unfold ssize_max; lia || exact Hin).
    unfold bind, lift, index. cbn [nth_error].
    rewrite Hb0, Hfin, Hopc, byte_val_of by lia.
    destruct (land_127_small (len payload)) as [-> ->]; [lia|].
    cbn [Z.eqb negb].
    destruct (Z.eqb_spec (len payload) 126); [lia|].
    destruct (Z.eqb_spec (len payload) 127); [lia|].
    unfold ret.
    rewrite (recv_app (len payload) payload more rest _ eq_refl)
      by (unfold ssize_max; lia || reflexivity).
    reflexivity.
  - destruct (Z.leb_spec (len payload) 65535) as [H64k|H64k].
    + rewrite (recv_app 2 [byte_of (Z.lor 128 opcode); byte_of 126]
                 (be_bytes 2 (len payload) ++ payload ++ more) rest s eq_refl)
        by (unfold ssize_max; lia || exact Hin).
      unfold bind, lift, index. cbn [nth_error].
      rewrite Hb0, Hfin, Hopc. cbn [Z.eqb negb].
      change (Z.land (byte_val (byte_of 126)) 128) with 0.
      change (Z.land (byte_val (byte_of 126)) 127) with 126.
      cbn [Z.eqb negb Pos.eqb].
      rewrite (recv_app 2 (be_bytes 2 (len payload)) (payload ++ more) rest _ eq_refl)
        by (unfold ssize_max; lia || reflexivity).
      unfold struct_unpack_H.
      rewrite (unpack_pack 2 (len payload) (be_bytes 2 (len payload))).
      2:{ unfold pack_uint. change (2 ^ (8 * Z.of_nat 2)) with 65536.
          destruct (Z.leb_spec 0 (len payload)); [|lia].
          destruct (Z.ltb_spec (len payload) 65536); [|lia]. reflexivity. }
      unfold ret.
      rewrite (recv_app (len payload) payload more rest _ eq_refl)
        by (unfold ssize_max; lia || reflexivity).
      reflexivity.
    + rewrite (recv_app 2 [byte_of (Z.lor 128 opcode); byte_of 127]
                 (be_bytes 8 (len payload) ++ payload ++ more) rest s eq_refl)
        by (unfold ssize_max; lia || exact Hin).
      unfold bind, lift, index. cbn [nth_error].
      rewrite Hb0, Hfin, Hopc. cbn [Z.eqb negb].
      change (Z.land (byte_val (byte_of 127)) 128) with 0.
      change (Z.land (byte_val (byte_of 127)) 127) with 127.
      cbn [Z.eqb negb Pos.eqb].
      rewrite (recv_app 8 (be_bytes 8 (len payload)) (payload ++ more) rest _ eq_refl)
        by (unfold ssize_max; lia || reflexivity).
      unfold struct_unpack_Q.
      rewrite (unpack_pack 8 (len payload) (be_bytes 8 (len payload))).
      2:{ unfold pack_uint. change (2 ^ (8 * Z.of_nat 8)) with (2 ^ 64).
          destruct (Z.leb_spec 0 (len payload)); [|lia].
          destruct (Z.ltb_spec (len payload) (2 ^ 64)); [|lia]. reflexivity. }
      unfold ret.
      rewrite (recv_app (len payload) payload more rest _ eq_refl)
        by (unfold ssize_max; lia || reflexivity).
      reflexivity.
Qed.

Lemma bytes_eqb_refl (b : bytes) : bytes_eqb b b = true.
Proof.
  induction b as [|x b IH]; [reflexivity|].
  cbn [bytes_eqb]. rewrite IH, andb_true_r. apply Byte.byte_dec_lb. reflexivity.
Qed.

Lemma frame_eqb_refl (f : frame) : frame_eqb f f = true.
Proof.
  unfold frame_eqb.
  rewrite !Bool.eqb_reflx, !Z.eqb_refl, bytes_eqb_refl. reflexivity.
Qed.

(** C1, as stated, does not hold: [send_frame] takes no [fin] and sets the bit
    in every frame, so the triple (fin = false, Text, empty payload) does not
    come back from the wire. *)
Lemma round_trip_fin_false_fails : round_trips false 1 [] = false.
Proof. vm_compute. reflexivity. Qed.

(** C1, amended: for every opcode of four bits and every payload, decoding the
    bytes [send_frame] produced yields fin = true, the opcode and the payload,
    not masked, whichever of the three length encodings is used. *)
Theorem send_receive_round_trip (opcode : Z) (payload : bytes) :
  0 <= opcode <= 15 -> len payload <= ssize_max ->
  round_trips true opcode payload = true.
Proof.
  intros Hop Hmax. unfold round_trips. rewrite send_frame_eq.
  pose proof (len_nonneg payload) as Hl. unfold ssize_max in Hmax.
  destruct (Z.leb_spec 0 opcode); [|lia].
  destruct (Z.ltb_spec opcode 256); [|lia].
  destruct (Z.ltb_spec (len payload) (2 ^ 64)); [|lia].
  cbn [andb sock_out set_sock_out connect app].
  rewrite (receive_frame_wire payload [] opcode []).
  - apply frame_eqb_refl.
  - exact Hop.
  - unfold ssize_max. lia.
  - cbn [connect sock_in]. rewrite app_nil_r. reflexivity.
Qed.

Lemma send_receive_round_trip_witness :
  (0 <= 2 <= 15 /\ len [x68; x69] <= ssize_max)
  /\ round_trips true 2 [x68; x69] = true.
Proof.
  assert (H : len [x68; x69] <= ssize_max) by (vm_compute; discriminate).
  split; [split; [lia | exact H] |].
  apply (send_receive_round_trip 2 [x68; x69]); [lia | exact H].
Defined.

(** The five payload lengths around the thresholds of the length encoding. *)
Example round_trip_lengths :
  forallb (fun n => round_trips true 1 (repeat x61 n))
          (map Z.to_nat [0; 125; 126; 65535; 65536]) = true.
Proof. vm_compute. reflexivity. Qed.

(** C10: every frame [send_frame] emits has bit 7 of its first byte set and
    bit 7 of its second byte clear, and it is written by one call to [send];
    when [send_frame] raises, nothing is written. *)
Theorem send_frame_fin_set_mask_clear (payload : bytes) (opcode : Z) (s : state) :
  match send_frame payload opcode s with
  | (Ok _, s') =>
      exists b0 b1 tail,
        sock_out s' = sock_out s ++ [b0 :: b1 :: tail]
        /\ Z.testbit (byte_val b0) 7 = true
        /\ Z.testbit (byte_val b1) 7 = false
  | (Raise _, s') => sock_out s' = sock_out s
  end.
Proof.
  rewrite send_frame_eq.
  destruct ((0 <=? opcode) && (opcode <? 256) && (len payload <? 2 ^ 64)) eqn:E;
    [|reflexivity].
  apply andb_prop in E. destruct E as [E E3]. apply andb_prop in E.
  destruct E as [E1 E2].
  assert (R : 0 <= Z.lor 128 opcode < 256).
  { pose proof (lor_128_range opcode) as R. rewrite E1, E2 in R.
    apply andb_prop in R. destruct R as [R1 R2].
    apply Z.leb_le in R1. apply Z.ltb_lt in R2. lia. }
  pose proof (len_nonneg payload) as Hl.
  unfold wire_header.
  assert (B0 : Z.testbit (byte_val (byte_of (Z.lor 128 opcode))) 7 = true).
  { rewrite byte_val_of by exact R. rewrite Z.lor_spec. reflexivity. }
  destruct (Z.leb_spec (len payload) 125).
  - exists (byte_of (Z.lor 128 opcode)), (byte_of (len payload)), payload.
    repeat split; [exact B0|].
    rewrite byte_val_of by lia.
    destruct (Z.eq_dec (len payload) 0) as [->|Hnz]; [reflexivity|].
    apply Z.bits_above_log2; [lia|].
    apply Z.log2_lt_pow2; [lia|]. change (2 ^ 7) with 128. lia.
  - destruct (Z.leb_spec (len payload) 65535).
    + exists (byte_of (Z.lor 128 opcode)), (byte_of 126),
        (be_bytes 2 (len payload) ++ payload).
      repeat split; [exact B0].
    + exists (byte_of (Z.lor 128 opcode)), (byte_of 127),
        (be_bytes 8 (len payload) ++ payload).
      repeat split; [exact B0].
Qed.

(** C7, on the code: a payload that arrives in two pieces.  The frame declares
    five bytes; the single [recv] returns the two that have arrived, and
    [receive_frame] returns a frame with [payload_length] 5 and a payload of
    two bytes instead of failing or reading on. *)
Theorem receive_frame_short_payload :
  receive_frame (connect [] [] [[x81; x05; x61; x62]; [x63; x64; x65]])
  = (Ok (mkFrame true 1 false 5 [x61; x62]),
     connect [] [] [[]; [x63; x64; x65]]).
Proof. vm_compute. reflexivity. Qed.

(** ** The UTF-8 codec *)

Ltac split_ranges :=
  unfold second3, second4 in *; unfold in_range, is_cont in *;
  repeat match goal with
         | H : _ && _ = true |- _ => apply andb_prop in H; destruct H
         | H : (_ <=? _) = true |- _ => apply Z.leb_le in H
         | H : (_ <? _) = true |- _ => apply Z.ltb_lt in H
         | H : (_ <? _) = false |- _ => apply Z.ltb_ge in H
         | H : context [if ?a =? ?b then _ else _] |- _ =>
             destruct (Z.eqb_spec a b)
         end.

Ltac decide_ranges :=
  repeat match goal with
         | |- context [?a <=? ?b] =>
             destruct (Z.leb_spec a b); try lia; cbn [andb orb]
         end.

Lemma encode_char_1 (c0 : Z) :
  0 <= c0 < 128 -> encode_char c0 = Ok [byte_of c0].
Proof.
  intros H. unfold encode_char, in_range. decide_ranges. reflexivity.
Qed.

Lemma encode_char_2 (c0 c1 : Z) :
  in_range 194 223 c0 = true -> is_cont c1 = true ->
  encode_char ((c0 - 192) * 64 + (c1 - 128)) = Ok [byte_of c0; byte_of c1].
Proof.
  intros H0 H1. split_ranges. unfold encode_char, in_range. decide_ranges.
  repeat f_equal; Z.div_mod_to_equations; lia.
Qed.

Lemma encode_char_3 (c0 c1 c2 : Z) :
  in_range 224 239 c0 = true -> second3 c0 c1 = true -> is_cont c2 = true ->
  encode_char ((c0 - 224) * 4096 + (c1 - 128) * 64 + (c2 - 128))
  = Ok [byte_of c0; byte_of c1; byte_of c2].
Proof.
  intros H0 H1 H2. split_ranges; unfold encode_char, in_range; decide_ranges;
    repeat f_equal; Z.div_mod_to_equations; lia.
Qed.

Lemma encode_char_4 (c0 c1 c2 c3 : Z) :
  in_range 240 244 c0 = true -> second4 c0 c1 = true ->
  is_cont c2 = true -> is_cont c3 = true ->
  encode_char ((c0 - 240) * 262144 + (c1 - 128) * 4096 + (c2 - 128) * 64
               + (c3 - 128))
  = Ok [byte_of c0; byte_of c1; byte_of c2; byte_of c3].
Proof.
  intros H0 H1 H2 H3. split_ranges; unfold encode_char, in_range; decide_ranges;
    repeat f_equal; Z.div_mod_to_equations; lia.
Qed.

Lemma rbind_ok {A B : Type} (r : result A) (f : A -> result B) (b : B) :
  rbind r f = Ok b -> exists a, r = Ok a /\ f a = Ok b.
Proof.
  destruct r as [a|e]; cbn [rbind]; intros H; [|discriminate].
  exists a. split; [reflexivity | exact H].
Qed.

Lemma decode_encode_bounded (n : nat) :
  forall (b : bytes) (s : str),
    (length b <= n)%nat -> decode_utf8 b = Ok s -> encode_utf8 s = Ok b.
Proof.
  induction n as [|n IH]; intros b s Hlen Hdec.
  - destruct b; [|cbn [length] in Hlen; lia].
    cbn [decode_utf8] in Hdec. injection Hdec as <-. reflexivity.
  - destruct b as [|b0 r0].
    { cbn [decode_utf8] in Hdec. injection Hdec as <-. reflexivity. }
    cbn [length] in Hlen. cbn [decode_utf8] in Hdec. cbv zeta in Hdec.
    pose proof (byte_val_range b0) as R0.
    destruct (byte_val b0 <? 128) eqn:E0.
    { apply rbind_ok in Hdec. destruct Hdec as (s' & Hs' & Heq).
      injection Heq as <-. cbn [encode_utf8].
      apply Z.ltb_lt in E0. rewrite encode_char_1 by lia.
      rewrite (IH r0 s') by (lia || assumption).
      cbn [rbind app]. rewrite byte_of_val. reflexivity. }
    destruct r0 as [|b1 r1]; [discriminate|]. cbn [length] in Hlen.
    destruct (in_range 194 223 (byte_val b0)) eqn:E1.
    { destruct (is_cont (byte_val b1)) eqn:C1; [|discriminate].
      apply rbind_ok in Hdec. destruct Hdec as (s' & Hs' & Heq).
      injection Heq as <-. cbn [encode_utf8].
      rewrite encode_char_2 by assumption.
      rewrite (IH r1 s') by (lia || assumption).
      cbn [rbind app]. rewrite !byte_of_val. reflexivity. }
    destruct r1 as [|b2 r2]; [discriminate|]. cbn [length] in Hlen.
    destruct (in_range 224 239 (byte_val b0)) eqn:E2.
    { destruct (second3 (byte_val b0) (byte_val b1) && is_cont (byte_val b2))
        eqn:C; [|discriminate].
      apply andb_prop in C. destruct C as [C1 C2].
      apply rbind_ok in Hdec. destruct Hdec as (s' & Hs' & Heq).
      injection Heq as <-. cbn [encode_utf8].
      rewrite encode_char_3 by assumption.
      rewrite (IH r2 s') by (lia || assumption).
      cbn [rbind app]. rewrite !byte_of_val. reflexivity. }
    destruct r2 as [|b3 r3]; [discriminate|]. cbn [length] in Hlen.
    destruct (in_range 240 244 (byte_val b0)
              && second4 (byte_val b0) (byte_val b1)
              && is_cont (byte_val b2) && is_cont (byte_val b3)) eqn:C;
      [|discriminate].
    apply andb_prop in C. destruct C as [C C3].
    apply andb_prop in C. destruct C as [C C2].
    apply andb_prop in C. destruct C as [C0 C1].
    apply rbind_ok in Hdec. destruct Hdec as (s' & Hs' & Heq).
    injection Heq as <-. cbn [encode_utf8].
    rewrite encode_char_4 by assumption.
    rewrite (IH r3 s') by (lia || assumption).
    cbn [rbind app]. rewrite !byte_of_val. reflexivity.
Qed.

(** Encoding what the strict decoder returned gives the bytes back. *)
Lemma decode_encode (b : bytes) (s : str) :
  decode_utf8 b = Ok s -> encode_utf8 s = Ok b.
Proof. apply (decode_encode_bounded (length b)). reflexivity. Qed.

Lemma decode_ascii (b : bytes) :
  ascii_bytes b -> decode_utf8 b = Ok (map byte_val b).
Proof.
  induction 1 as [|x b Hx Hb IH]; [reflexivity|].
  cbn [decode_utf8 map]. cbv zeta.
  destruct (Z.ltb_spec (byte_val x) 128); [|lia].
  rewrite IH. reflexivity.
Qed.

(** ** The accept key *)

Lemma base64_char_ascii (i : Z) : byte_val (Base64.char i) < 128.
Proof.
  unfold Base64.char.
  assert (A : forall c, In c Base64.alphabet -> 0 <= c < 128).
  { assert (F : forallb (fun c => (0 <=? c) && (c <? 128)) Base64.alphabet = true)
      by (vm_compute; reflexivity).
    intros c Hc. rewrite forallb_forall in F. specialize (F c Hc).
    apply andb_prop in F. destruct F as [F1 F2].
    apply Z.leb_le in F1. apply Z.ltb_lt in F2. lia. }
  destruct (nth_in_or_default (Z.to_nat i) Base64.alphabet 0) as [Hin| ->].
  - specialize (A _ Hin). rewrite byte_val_of by lia. lia.
  - vm_compute. reflexivity.
Qed.

Lemma b64encode_ascii_bounded (n : nat) :
  forall b : bytes, (length b <= n)%nat -> ascii_bytes (Base64.b64encode b).
Proof.
  assert (P : byte_val Base64.pad_char < 128) by (vm_compute; reflexivity).
  induction n as [|n IH]; intros b Hlen.
  - destruct b; [constructor | cbn [length] in Hlen; lia].
  - destruct b as [|b0 [|b1 [|b2 r]]]; cbn [Base64.b64encode]; cbv zeta.
    + constructor.
    + repeat constructor; try apply base64_char_ascii; exact P.
    + repeat constructor; try apply base64_char_ascii; exact P.
    + cbn [length] in Hlen.
      repeat (constructor; [apply base64_char_ascii|]).
      apply IH. lia.
Qed.

Lemma b64encode_ascii (b : bytes) : ascii_bytes (Base64.b64encode b).
Proof. apply (b64encode_ascii_bounded (length b)). reflexivity. Qed.

(** C6: the accept value is the Base64 text of the SHA-1 digest of the key
    followed by the GUID of RFC 6455, and the key of the worked example of the
    RFC gives the accept value the RFC states. *)
Theorem accept_key_is_base64_of_sha1 :
  (forall key : str,
      generate_accept_key key =
      match encode_utf8 (key ++ lit "258EAFA5-E914-47DA-95CA-C5AB0DC85B11") with
      | Ok encoded =>
          Ok (map byte_val (Base64.b64encode (SHA1.digest encoded)))
      | Raise e => Raise e
      end)
  /\ generate_accept_key (lit "dGhlIHNhbXBsZSBub25jZQ==")
     = Ok (lit "s3pPLMBiTxaQ9kYGzzhZRbK+xOo=").
Proof.
  split.
  - intros key. unfold generate_accept_key. fold GUID.
    destruct (encode_utf8 (key ++ GUID)) as [encoded|e]; cbn [rbind].
    + apply decode_ascii, b64encode_ascii.
    + reflexivity.
  - vm_compute. reflexivity.
Qed.

(** ** Reasoning in the monad *)

Lemma bind_ok {A B : Type} (m : M A) (f : A -> M B) (s s' : state) (b : B) :
  bind m f s = (Ok b, s') ->
  exists a s1, m s = (Ok a, s1) /\ f a s1 = (Ok b, s').
Proof.
  unfold bind. destruct (m s) as [[a|e] s1]; intros H; [|discriminate].
  exists a, s1. split; [reflexivity | exact H].
Qed.

Lemma state_eta (s : state) : set_sock_in (sock_in s) s = s.
Proof. destruct s. reflexivity. Qed.

Lemma reader_ret {A : Type} (a : A) : reader (ret a).
Proof. intros s t H. unfold ret. cbn [fst snd]. rewrite <- H, state_eta. reflexivity. Qed.

Lemma reader_raise {A : Type} (e : exn) : reader (@raise A e).
Proof. intros s t H. unfold raise. cbn [fst snd]. rewrite <- H, state_eta. reflexivity. Qed.

Lemma reader_lift {A : Type} (r : result A) : reader (lift r).
Proof. intros s t H. unfold lift. cbn [fst snd]. rewrite <- H, state_eta. reflexivity. Qed.

Lemma reader_recv (n : Z) : reader (recv n).
Proof.
  intros s t H. unfold recv. rewrite H.
  destruct (n >? ssize_max).
  { cbn [fst snd]. rewrite <- H, state_eta. reflexivity. }
  destruct (n <? 0).
  { cbn [fst snd]. rewrite <- H, state_eta. reflexivity. }
  destruct (recv_from (Z.to_nat n) (sock_in s)) as [data rest].
  reflexivity.
Qed.

Lemma reader_bind {A B : Type} (m : M A) (f : A -> M B) :
  reader m -> (forall a, reader (f a)) -> reader (bind m f).
Proof.
  intros Hm Hf s t H. unfold bind.
  rewrite (Hm s t H).
  destruct (m s) as [[a|e] s1]; cbn [fst snd].
  - rewrite (Hf a s1 (set_sock_in (sock_in s1) t)) by reflexivity.
    reflexivity.
  - reflexivity.
Qed.

Lemma reader_receive_frame : reader receive_frame.
Proof.
  unfold receive_frame.
  apply reader_bind; [apply reader_recv|]. intros header.
  destruct header as [|h0 header]; [apply reader_raise|].
  apply reader_bind; [apply reader_lift|]. intros c0.
  apply reader_bind; [apply reader_lift|]. intros c1.
  apply reader_bind.
  { destruct (Z.land c1 127 =? 126).
    - apply reader_bind; [apply reader_recv | intros; apply reader_lift].
    - destruct (Z.land c1 127 =? 127).
      + apply reader_bind; [apply reader_recv | intros; apply reader_lift].
      + apply reader_ret. }
  intros n.
  apply reader_bind.
  { destruct (negb (Z.land c1 128 =? 0)).
    - apply reader_bind; [apply reader_recv | intros; apply reader_ret].
    - apply reader_ret. }
  intros key.
  apply reader_bind; [apply reader_recv|]. intros data.
  apply reader_bind.
  { destruct (negb (Z.land c1 128 =? 0)); [apply reader_lift | apply reader_ret]. }
  intros data'. apply reader_ret.
Qed.

(** [receive_frame] leaves everything but the pending input as it is. *)
Lemma receive_frame_state (s s' : state) (r : result frame) :
  receive_frame s = (r, s') -> s' = set_sock_in (sock_in s') s.
Proof.
  intros H. pose proof (reader_receive_frame s s eq_refl) as R.
  rewrite H in R. cbn [fst snd] in R. congruence.
Qed.

(** The same frame is read from any state with the same pending input. *)
Lemma receive_frame_same_input (s s' t : state) (r : result frame) :
  receive_frame s = (r, s') -> sock_in t = sock_in s ->
  receive_frame t = (r, set_sock_in (sock_in s') t).
Proof.
  intros H Hin. rewrite (reader_receive_frame s t Hin), H. reflexivity.
Qed.

(** ** The size of a received payload *)

Lemma recv_from_length (n : nat) (pieces : list bytes) :
  (length (fst (recv_from n pieces)) <= n)%nat.
Proof.
  induction pieces as [|piece rest IH]; destruct n as [|n]; cbn [recv_from fst length];
    try lia.
  destruct piece as [|x piece]; [exact IH|].
  cbn [fst]. rewrite length_firstn. lia.
Qed.

Lemma recv_length (n : Z) (s s' : state) (data : bytes) :
  recv n s = (Ok data, s') -> len data <= n /\ n <= ssize_max.
Proof.
  unfold recv. destruct (Z.gtb_spec n ssize_max); [discriminate|].
  destruct (Z.ltb_spec n 0); [discriminate|].
  pose proof (recv_from_length (Z.to_nat n) (sock_in s)) as L.
  destruct (recv_from (Z.to_nat n) (sock_in s)) as [d rest].
  intros E. injection E as <- _. cbn [fst] in L. unfold len. lia.
Qed.

Lemma rmap_length {A B : Type} (f : A -> result B) (l : list A) (l' : list B) :
  rmap f l = Ok l' -> length l' = length l.
Proof.
  revert l'. induction l as [|a l IH]; intros l' H; cbn [rmap] in H.
  - injection H as <-. reflexivity.
  - destruct (f a) as [b|e]; cbn [rbind] in H; [|discriminate].
    destruct (rmap f l) as [bs|e]; cbn [rbind] in H; [|discriminate].
    injection H as <-. cbn [length]. rewrite (IH bs eq_refl). reflexivity.
Qed.

Lemma unmask_payload_length (data : bytes) (key : option bytes) (data' : bytes) :
  unmask_payload data key = Ok data' -> length data' = length data.
Proof.
  unfold unmask_payload. intros H. apply rmap_length in H.
  rewrite H, length_seq. reflexivity.
Qed.

(** A frame [receive_frame] returns never holds more than it declares, and
    what it declares fits a bytes object. *)
Lemma receive_frame_payload_bound (s s' : state) (f : frame) :
  receive_frame s = (Ok f, s') ->
  len (payload f) <= payload_length f /\ payload_length f <= ssize_max.
Proof.
  unfold receive_frame. intros H.
  apply bind_ok in H. destruct H as (header & s1 & _ & H).
  destruct header as [|h0 header]; [discriminate|].
  apply bind_ok in H. destruct H as (c0 & s2 & _ & H).
  apply bind_ok in H. destruct H as (c1 & s3 & _ & H).
  apply bind_ok in H. destruct H as (n & s4 & _ & H).
  apply bind_ok in H. destruct H as (key & s5 & _ & H).
  apply bind_ok in H. destruct H as (data & s6 & Hrecv & H).
  apply bind_ok in H. destruct H as (data' & s7 & Hmask & H).
  unfold ret in H. injection H as <- _. cbn [payload payload_length].
  apply recv_length in Hrecv.
  destruct (negb (Z.land c1 128 =? 0)).
  - unfold lift in Hmask. injection Hmask as Hmask _.
    apply unmask_payload_length in Hmask. unfold len in *. lia.
  - unfold ret in Hmask. injection Hmask as <- _. exact Hrecv.
Qed.

(** ** The passes of the frame loop *)

Lemma on_exception_eq (s : state) :
  on_exception s
  = (Ok true,
     set_sock_out (sock_out s ++ [close_frame 1002 protocol_error]) s).
Proof.
  unfold on_exception, send_close_frame, bind, lift.
  change (struct_pack_H 1002) with (Ok (be_bytes 2 1002)).
  replace (encode_utf8 (lit "Protocol error")) with (Ok protocol_error)
    by (vm_compute; reflexivity).
  rewrite send_frame_eq.
  replace (len (be_bytes 2 1002 ++ protocol_error)) with 16
    by (vm_compute; reflexivity).
  cbn [Z.leb Z.ltb Z.compare andb Pos.compare Pos.compare_cont Z.pow Z.pow_pos
       Pos.iter Z.mul Pos.mul].
  unfold ret, close_frame.
  replace (2 + len protocol_error) with 16 by (vm_compute; reflexivity).
  reflexivity.
Qed.

Lemma iteration_received (s s1 : state) (f : frame) :
  receive_frame s = (Ok f, s1) -> iteration s = on_frame f s1.
Proof. intros H. unfold iteration. rewrite H. reflexivity. Qed.

Lemma frame_loop_break (s s' : state) (fuel : nat) :
  iteration s = (Ok true, s') -> frame_loop (S fuel) s = Some (Ok tt, s').
Proof. intros H. cbn [frame_loop]. rewrite H. reflexivity. Qed.

Lemma frame_loop_passes (n fuel : nat) (s s' : state) :
  passes n s = Some s' -> frame_loop (n + fuel) s = frame_loop fuel s'.
Proof.
  revert s. induction n as [|n IH]; intros s H; cbn [passes] in H.
  - injection H as <-. reflexivity.
  - cbn [Nat.add frame_loop].
    destruct (iteration s) as [[[|]|e] s1]; try discriminate.
    apply IH. exact H.
Qed.

(** A data frame while a message is being reassembled. *)
Lemma on_frame_data_pending (f : frame) (s : state) (started : Z) :
  opcode f = 1 \/ opcode f = 2 -> fragmented_opcode s = Some started ->
  on_frame f s = on_exception s.
Proof.
  intros Hop Hpending. unfold on_frame, dispatch.
  assert (E0 : (opcode f =? 0) = false) by (apply Z.eqb_neq; lia).
  assert (E12 : (opcode f =? 1) || (opcode f =? 2) = true).
  { destruct Hop as [-> | ->]; reflexivity. }
  rewrite E0, E12. unfold bind, get. rewrite Hpending.
  cbn [handle_data_frame]. unfold raise. reflexivity.
Qed.

Lemma on_frame_ping (f : frame) (s : state) :
  opcode f = 9 -> len (payload f) < 2 ^ 64 ->
  on_frame f s
  = (Ok false,
     set_sock_out
       (sock_out s ++ [wire_header 10 (len (payload f)) ++ payload f]) s).
Proof.
  intros Hop Hlen. unfold on_frame, dispatch. rewrite Hop.
  cbn [Z.eqb Pos.eqb orb].
  unfold bind, handle_ping_frame, send_pong_frame. rewrite send_frame_eq.
  destruct (Z.ltb_spec (len (payload f)) (2 ^ 64)); [|lia].
  reflexivity.
Qed.

(** C3: while a fragmented message is open, a Text or Binary frame, whatever
    its fin bit, makes the server send a Close frame with code 1002 and leave
    the frame loop; the handler is not called. *)
Theorem data_frame_while_fragmented_closes_1002
    (s s1 : state) (f : frame) (started : Z) :
  fragmented_opcode s = Some started ->
  receive_frame s = (Ok f, s1) ->
  opcode f = 1 \/ opcode f = 2 ->
  let s' := set_sock_out (sock_out s1 ++ [close_frame 1002 protocol_error]) s1 in
  iteration s = (Ok true, s')
  /\ (forall fuel, frame_loop (S fuel) s = Some (Ok tt, s'))
  /\ delivered s' = delivered s.
Proof.
  intros Hpending Hrecv Hop s'.
  assert (Hit : iteration s = (Ok true, s')).
  { rewrite (iteration_received s s1 f Hrecv).
    rewrite (on_frame_data_pending f s1 started Hop).
    - apply on_exception_eq.
    - rewrite (receive_frame_state s s1 _ Hrecv). exact Hpending. }
  split; [exact Hit|]. split.
  - intros fuel. apply frame_loop_break. exact Hit.
  - subst s'. rewrite (receive_frame_state s s1 _ Hrecv). reflexivity.
Qed.

Lemma data_frame_while_fragmented_closes_1002_witness :
  let s := mkState [] [] [[x02; x01; x62]] [] false [x61] (Some 1) [] in
  let s1 := mkState [] [] [[]] [] false [x61] (Some 1) [] in
  let s' := set_sock_out (sock_out s1 ++ [close_frame 1002 protocol_error]) s1 in
  iteration s = (Ok true, s')
  /\ (forall fuel, frame_loop (S fuel) s = Some (Ok tt, s'))
  /\ delivered s' = delivered s.
Proof.
  apply (data_frame_while_fragmented_closes_1002
           (mkState [] [] [[x02; x01; x62]] [] false [x61] (Some 1) [])
           (mkState [] [] [[]] [] false [x61] (Some 1) [])
           (mkFrame false 2 false 1 [x62]) 1).
  - reflexivity.
  - vm_compute. reflexivity.
  - right. reflexivity.
Defined.

(** C5: a Ping is answered in the same pass by one Pong frame with the very
    payload of the Ping, the loop goes on, and the buffer and the opcode of
    the message being reassembled are as they were. *)
Theorem ping_answered_by_pong (s s1 : state) (f : frame) :
  receive_frame s = (Ok f, s1) ->
  opcode f = 9 ->
  let pong := wire_header 10 (len (payload f)) ++ payload f in
  let s' := set_sock_out (sock_out s1 ++ [pong]) s1 in
  iteration s = (Ok false, s')
  /\ fragmented_message s' = fragmented_message s
  /\ fragmented_opcode s' = fragmented_opcode s
  /\ delivered s' = delivered s.
Proof.
  intros Hrecv Hop pong s'.
  pose proof (receive_frame_payload_bound s s1 f Hrecv) as [B1 B2].
  unfold ssize_max in B2.
  split.
  - rewrite (iteration_received s s1 f Hrecv). apply on_frame_ping; [exact Hop | lia].
  - subst s'. rewrite (receive_frame_state s s1 _ Hrecv). repeat split.
Qed.

Lemma ping_answered_by_pong_witness :
  let s := mkState [] [] [[x89; x02; x68; x69]] [] false [x61] (Some 1) [] in
  let s1 := mkState [] [] [[]] [] false [x61] (Some 1) [] in
  let s' := set_sock_out (sock_out s1 ++ [[x8a; x02; x68; x69]]) s1 in
  iteration s = (Ok false, s')
  /\ fragmented_message s' = fragmented_message s
  /\ fragmented_opcode s' = fragmented_opcode s
  /\ delivered s' = delivered s.
Proof.
  apply (ping_answered_by_pong
           (mkState [] [] [[x89; x02; x68; x69]] [] false [x61] (Some 1) [])
           (mkState [] [] [[]] [] false [x61] (Some 1) [])
           (mkFrame true 9 false 2 [x68; x69])).
  - vm_compute. reflexivity.
  - reflexivity.
Defined.

(** ** Close frames *)

Lemma be_value_2_range (a b : byte) : 0 <= be_value [a; b] < 65536.
Proof.
  unfold be_value. cbn [fold_left].
  pose proof (byte_val_range a). pose proof (byte_val_range b). lia.
Qed.

Lemma be_bytes_2_value (a b : byte) : be_bytes 2 (be_value [a; b]) = [a; b].
Proof.
  unfold be_value. cbn [fold_left be_bytes].
  pose proof (byte_val_range a) as Ha. pose proof (byte_val_range b) as Hb.
  change (8 * Z.of_nat 1) with 8. change (8 * Z.of_nat 0) with 0.
  rewrite Z.shiftr_0_r, Z.shiftr_div_pow2 by lia. change (2 ^ 8) with 256.
  replace (((0 * 256 + byte_val a) * 256 + byte_val b) / 256 mod 256)
    with (byte_val a) by (Z.div_mod_to_equations; lia).
  replace (((0 * 256 + byte_val a) * 256 + byte_val b) mod 256)
    with (byte_val b) by (Z.div_mod_to_equations; lia).
  rewrite !byte_of_val. reflexivity.
Qed.

(** The reply built from the parsed payload is the payload itself. *)
Lemma close_frame_parse (p : bytes) :
  2 <= len p ->
  close_frame (fst (parse_close p)) (snd (parse_close p))
  = wire_header 8 (len p) ++ p.
Proof.
  intros H. unfold parse_close, close_frame.
  destruct (Z.geb_spec (len p) 2); [|lia]. cbn [fst snd].
  destruct p as [|a [|b p]]; try (unfold len in H; cbn [length] in H; lia).
  cbn [firstn skipn]. rewrite be_bytes_2_value.
  replace (2 + len p) with (len (a :: b :: p))
    by (unfold len; cbn [length]; lia).
  reflexivity.
Qed.

Lemma on_frame_close (f : frame) (s : state) (reason : str) :
  opcode f = 8 -> len (payload f) < 2 ^ 64 ->
  decode_utf8 (snd (parse_close (payload f))) = Ok reason ->
  on_frame f s
  = (Ok true,
     set_sock_out
       (sock_out s ++ [close_frame (fst (parse_close (payload f)))
                                   (snd (parse_close (payload f)))]) s).
Proof.
  intros Hop Hlen Hdec. unfold on_frame, dispatch. rewrite Hop.
  cbn [Z.eqb Pos.eqb orb].
  unfold bind at 1. unfold handle_close_frame. unfold parse_close in *.
  destruct (Z.geb_spec (len (payload f)) 2) as [H2|H2]; cbn [fst snd] in *.
  - destruct (payload f) as [|a [|b p]] eqn:Ep;
      try (unfold len in H2; cbn [length] in H2; lia).
    cbn [firstn skipn] in *.
    unfold bind, lift, struct_unpack_H, unpack_uint. cbn [length Nat.eqb].
    rewrite Hdec. unfold send_close_frame, bind, lift, struct_pack_H, pack_uint.
    pose proof (be_value_2_range a b) as R.
    change (2 ^ (8 * Z.of_nat 2)) with 65536.
    destruct (Z.leb_spec 0 (be_value [a; b])); [|lia].
    destruct (Z.ltb_spec (be_value [a; b]) 65536); [|lia].
    cbn [andb]. rewrite (decode_encode p reason Hdec).
    rewrite send_frame_eq.
    assert (L : len (be_bytes 2 (be_value [a; b]) ++ p) = 2 + len p).
    { rewrite len_app. unfold len. rewrite be_bytes_length. lia. }
    rewrite L.
    assert (L' : len (a :: b :: p) = 2 + len p)
      by (unfold len; cbn [length]; lia).
    rewrite L' in Hlen.
    destruct (Z.ltb_spec (2 + len p) (2 ^ 64)); [|lia].
    cbn [Z.leb Z.ltb Z.compare andb Pos.compare Pos.compare_cont].
    unfold ret, close_frame. reflexivity.
  - unfold send_close_frame, bind, lift.
    change (struct_pack_H 1000) with (Ok (be_bytes 2 1000)).
    cbn [encode_utf8]. rewrite send_frame_eq.
    change (len (be_bytes 2 1000 ++ [])) with 2.
    cbn [Z.leb Z.ltb Z.compare andb Pos.compare Pos.compare_cont Z.pow Z.pow_pos
         Pos.iter Z.mul Pos.mul].
    unfold ret, close_frame. reflexivity.
Qed.

(** A Close frame whose reason does not decode: [handle_close_frame] raises
    before anything is written, and the [except] clause takes over. *)
Lemma on_frame_close_bad_reason (f : frame) (s : state) (e : exn) :
  opcode f = 8 ->
  decode_utf8 (snd (parse_close (payload f))) = Raise e ->
  on_frame f s = on_exception s.
Proof.
  intros Hop Hdec. unfold on_frame, dispatch. rewrite Hop.
  cbn [Z.eqb Pos.eqb orb].
  unfold bind at 1. unfold handle_close_frame. unfold parse_close in Hdec.
  destruct (Z.geb_spec (len (payload f)) 2) as [H2|H2]; cbn [fst snd] in Hdec.
  - destruct (payload f) as [|a [|b p]] eqn:Ep;
      try (unfold len in H2; cbn [length] in H2; lia).
    cbn [firstn skipn] in *.
    unfold bind, lift, struct_unpack_H, unpack_uint. cbn [length Nat.eqb].
    rewrite Hdec. reflexivity.
  - cbn in Hdec. discriminate.
Qed.

Lemma handle_client_after_handshake (s0 sh : state) (fuel : nat) :
  handshake s0 = (Ok tt, sh) ->
  handle_client fuel s0
  = match frame_loop fuel
            (set_fragmented_opcode None (set_fragmented_message [] sh)) with
    | Some (_, s2) => Some (close s2)
    | None => None
    end.
Proof. intros H. unfold handle_client, handle_websocket_frames. rewrite H. reflexivity. Qed.

(** C4, as stated, does not hold: a Close frame whose reason is not UTF-8
    (status code 1000, then the byte FF) is not answered with its own code and
    reason but with the code 1002 and the reason of a protocol error. *)
Lemma close_with_invalid_reason_gets_1002 :
  sock_out (snd (iteration (connect [] [] [[x88; x03; x03; xe8; xff]])))
  = [close_frame 1002 protocol_error]
  /\ close_frame 1002 protocol_error <> close_frame 1000 [xff].
Proof. split; [vm_compute; reflexivity | vm_compute; discriminate]. Qed.

(** C4, amended: when the loop of a connection, after any number of passes,
    receives a Close frame, the server answers with exactly one Close frame,
    leaves the loop, reads nothing more, and [handle_client] closes the
    socket.  When the reason of the payload, if any, is valid UTF-8 the
    answer carries the status code and the reason of the payload (1000 and no
    reason when the payload has fewer than two bytes); when the reason is not
    valid UTF-8 the answer carries the status code 1002 and the reason
    "Protocol error". *)
Theorem close_frame_echoed_then_closed
    (s0 sh s s1 : state) (n : nat) (f : frame) :
  handshake s0 = (Ok tt, sh) ->
  passes n (set_fragmented_opcode None (set_fragmented_message [] sh)) = Some s ->
  receive_frame s = (Ok f, s1) ->
  opcode f = 8 ->
  let reply := match decode_utf8 (snd (parse_close (payload f))) with
               | Ok _ => close_frame (fst (parse_close (payload f)))
                                     (snd (parse_close (payload f)))
               | Raise _ => close_frame 1002 protocol_error
               end in
  let s2 := set_sock_out (sock_out s1 ++ [reply]) s1 in
  iteration s = (Ok true, s2)
  /\ (forall fuel, handle_client (n + S fuel) s0 = Some (close s2))
  /\ sock_closed (close s2) = true
  /\ sock_in (close s2) = sock_in s1.
Proof.
  intros Hhs Hpasses Hrecv Hop reply s2.
  pose proof (receive_frame_payload_bound s s1 f Hrecv) as [B1 B2].
  unfold ssize_max in B2.
  assert (Hit : iteration s = (Ok true, s2)).
  { rewrite (iteration_received s s1 f Hrecv). subst s2 reply.
    destruct (decode_utf8 (snd (parse_close (payload f)))) as [reason|e] eqn:Hdec.
    - apply (on_frame_close f s1 reason); [exact Hop | lia | exact Hdec].
    - rewrite (on_frame_close_bad_reason f s1 e Hop Hdec).
      apply on_exception_eq. }
  split; [exact Hit|]. split; [|split; reflexivity].
  intros fuel. rewrite (handle_client_after_handshake s0 sh _ Hhs).
  rewrite (frame_loop_passes n (S fuel) _ s Hpasses).
  rewrite (frame_loop_break s s2 fuel Hit). reflexivity.
Qed.

(** ** Fragmented messages *)

Lemma on_frame_start (f : frame) (s : state) :
  opcode f = 1 \/ opcode f = 2 -> fin f = false ->
  fragmented_opcode s = None ->
  on_frame f s
  = (Ok false,
     mkState (extensions s) (subprotocols s) (sock_in s) (sock_out s)
             (sock_closed s) (payload f) (Some (opcode f)) (delivered s)).
Proof.
  intros Hop Hfin Hnone. unfold on_frame, dispatch.
  assert (E0 : (opcode f =? 0) = false) by (apply Z.eqb_neq; lia).
  assert (E12 : (opcode f =? 1) || (opcode f =? 2) = true).
  { destruct Hop as [-> | ->]; reflexivity. }
  rewrite E0, E12, Hfin. unfold bind, get. rewrite Hnone.
  cbn [handle_data_frame]. rewrite Hfin. reflexivity.
Qed.

Lemma on_frame_continue (f : frame) (s : state) (started : Z) :
  opcode f = 0 -> fin f = false -> fragmented_opcode s = Some started ->
  on_frame f s
  = (Ok false,
     mkState (extensions s) (subprotocols s) (sock_in s) (sock_out s)
             (sock_closed s) (fragmented_message s ++ payload f)
             (Some started) (delivered s)).
Proof.
  intros Hop Hfin Hsome. unfold on_frame, dispatch. rewrite Hop, Hfin.
  cbn [Z.eqb]. unfold bind, get. rewrite Hsome.
  cbn [handle_continuation_frame]. rewrite Hfin.
  unfold bind, modify, ret, set_fragmented_message. cbn. rewrite Hsome.
  reflexivity.
Qed.

(** What [handle_complete_message] does when it returns: it is recorded, and
    the message is echoed in one frame of its type. *)
Lemma handle_complete_message_ok (op : Z) (message : bytes) (s : state) :
  op = 2 \/ (op = 1 /\ exists text, decode_utf8 message = Ok text) ->
  len message < 2 ^ 64 ->
  handle_complete_message op message s
  = (Ok tt,
     mkState (extensions s) (subprotocols s) (sock_in s)
             (sock_out s ++ [wire_header op (len message) ++ message])
             (sock_closed s) (fragmented_message s) (fragmented_opcode s)
             (delivered s ++ [(op, message)])).
Proof.
  intros Hop Hlen. unfold handle_complete_message, bind at 1, modify.
  destruct Hop as [-> | [-> [text Htext]]].
  - cbn [Z.eqb Pos.eqb]. unfold send_binary_frame. rewrite send_frame_eq.
    destruct (Z.ltb_spec (len message) (2 ^ 64)); [|lia]. reflexivity.
  - cbn [Z.eqb Pos.eqb]. unfold bind, lift. rewrite Htext.
    unfold send_text_frame, bind, lift.
    rewrite (decode_encode message text Htext), send_frame_eq.
    destruct (Z.ltb_spec (len message) (2 ^ 64)); [|lia]. reflexivity.
Qed.

(** A Text message that is not UTF-8: the call is recorded and raises. *)
Lemma handle_complete_message_bad_text (message : bytes) (s : state) :
  (forall text, decode_utf8 message <> Ok text) ->
  exists e,
    handle_complete_message 1 message s
    = (Raise e, set_delivered (delivered s ++ [(1, message)]) s).
Proof.
  intros Hbad. unfold handle_complete_message, bind, modify, lift.
  cbn [Z.eqb Pos.eqb].
  destruct (decode_utf8 message) as [text|e].
  - exfalso. apply (Hbad text). reflexivity.
  - exists e. reflexivity.
Qed.

Lemma on_frame_final (f : frame) (s : state) (started : Z) :
  opcode f = 0 -> fin f = true -> fragmented_opcode s = Some started ->
  let message := fragmented_message s ++ payload f in
  started = 2 \/ (started = 1 /\ exists text, decode_utf8 message = Ok text) ->
  len message < 2 ^ 64 ->
  on_frame f s
  = (Ok false,
     mkState (extensions s) (subprotocols s) (sock_in s)
             (sock_out s ++ [wire_header started (len message) ++ message])
             (sock_closed s) [] None (delivered s ++ [(started, message)])).
Proof.
  intros Hop Hfin Hsome message Hok Hlen.
  unfold on_frame, dispatch. rewrite Hop, Hfin. cbn [Z.eqb].
  unfold bind at 1. unfold bind at 1. unfold get. rewrite Hsome.
  cbn [handle_continuation_frame]. rewrite Hfin.
  unfold bind at 1. unfold bind at 1. unfold modify at 1.
  unfold bind at 1. unfold get.
  change (fragmented_message
            (set_fragmented_message (fragmented_message s ++ payload f) s))
    with message.
  rewrite (handle_complete_message_ok started message _ Hok Hlen).
  reflexivity.
Qed.

Lemma on_frame_final_bad_text (f : frame) (s : state) :
  opcode f = 0 -> fin f = true -> fragmented_opcode s = Some 1 ->
  let message := fragmented_message s ++ payload f in
  (forall text, decode_utf8 message <> Ok text) ->
  on_frame f s
  = (Ok true,
     mkState (extensions s) (subprotocols s) (sock_in s)
             (sock_out s ++ [close_frame 1002 protocol_error])
             (sock_closed s) message (Some 1)
             (delivered s ++ [(1, message)])).
Proof.
  intros Hop Hfin Hsome message Hbad.
  unfold on_frame, dispatch. rewrite Hop, Hfin. cbn [Z.eqb].
  unfold bind at 1. unfold bind at 1. unfold get. rewrite Hsome.
  cbn [handle_continuation_frame]. rewrite Hfin.
  unfold bind at 1. unfold bind at 1. unfold modify at 1.
  unfold bind at 1. unfold get.
  subst message.
  change (fragmented_message
            (set_fragmented_message (fragmented_message s ++ payload f) s))
    with (fragmented_message s ++ payload f).
  destruct (handle_complete_message_bad_text (fragmented_message s ++ payload f)
              (set_fragmented_message (fragmented_message s ++ payload f) s)
              Hbad) as [e He].
  rewrite He. rewrite on_exception_eq. rewrite <- Hsome. reflexivity.
Qed.

Lemma reader_receive_frames (n : nat) : reader (receive_frames n).
Proof.
  induction n as [|n IH]; cbn [receive_frames].
  - apply reader_ret.
  - apply reader_bind; [apply reader_receive_frame|]. intros f.
    apply reader_bind; [exact IH|]. intros fs. apply reader_ret.
Qed.

Lemma receive_frames_same_input (n : nat) (s s' t : state)
    (r : result (list frame)) :
  receive_frames n s = (r, s') -> sock_in t = sock_in s ->
  receive_frames n t = (r, set_sock_in (sock_in s') t).
Proof.
  intros H Hin. rewrite (reader_receive_frames n s t Hin), H. reflexivity.
Qed.

Lemma receive_frames_cons (n : nat) (s s_r : state) (f : frame)
    (fs : list frame) :
  receive_frames (S n) s = (Ok (f :: fs), s_r) ->
  exists s1, receive_frame s = (Ok f, s1) /\ receive_frames n s1 = (Ok fs, s_r).
Proof.
  cbn [receive_frames]. intros H.
  apply bind_ok in H. destruct H as (f' & s1 & Hf & H).
  apply bind_ok in H. destruct H as (fs' & s2 & Hfs & H).
  unfold ret in H. injection H as -> -> ->.
  exists s1. split; assumption.
Qed.

Lemma passes_add (a b : nat) (s t : state) :
  passes a s = Some t -> passes (a + b) s = passes b t.
Proof.
  revert s. induction a as [|a IH]; intros s H; cbn [passes] in H.
  - injection H as <-. reflexivity.
  - cbn [Nat.add passes]. destruct (iteration s) as [[[|]|e] s1]; try discriminate.
    apply IH. exact H.
Qed.

Lemma after_passes_add (a b : nat) (s t : state) :
  passes a s = Some t -> after_passes (a + b) s = after_passes b t.
Proof.
  revert s. induction a as [|a IH]; intros s H; cbn [passes] in H.
  - injection H as <-. reflexivity.
  - cbn [Nat.add after_passes].
    destruct (iteration s) as [[[|]|e] s1]; try discriminate.
    apply IH. exact H.
Qed.

Lemma after_passes_passes (n : nat) (s t : state) :
  passes n s = Some t -> after_passes n s = t.
Proof.
  intros H. rewrite <- (Nat.add_0_r n), (after_passes_add n 0 s t H).
  reflexivity.
Qed.

(** The passes over the continuation frames that do not end the message: the
    payloads pile up in the buffer and nothing else changes. *)
Lemma passes_over_middle (middle : list frame) :
  forall (s s_m : state) (started : Z),
    fragmented_opcode s = Some started ->
    receive_frames (length middle) s = (Ok middle, s_m) ->
    Forall (fun c => opcode c = 0 /\ fin c = false) middle ->
    passes (length middle) s
    = Some (mkState (extensions s) (subprotocols s) (sock_in s_m) (sock_out s)
                    (sock_closed s)
                    (fragmented_message s ++ concat (map payload middle))
                    (Some started) (delivered s)).
Proof.
  induction middle as [|c middle IH]; intros s s_m started Hsome Hrecv Hall.
  - cbn [length receive_frames] in Hrecv. unfold ret in Hrecv.
    injection Hrecv as <-. cbn [length passes map concat].
    rewrite app_nil_r, <- Hsome. destruct s. reflexivity.
  - cbn [length] in *. apply receive_frames_cons in Hrecv.
    destruct Hrecv as (s1 & Hc & Hrest).
    inversion Hall as [|c' middle' [Hop Hfin] Hall' E]. subst c' middle'.
    pose proof (receive_frame_state s s1 _ Hc) as Hs1.
    assert (Hsome1 : fragmented_opcode s1 = Some started)
      by (rewrite Hs1; exact Hsome).
    cbn [passes]. rewrite (iteration_received s s1 c Hc).
    rewrite (on_frame_continue c s1 started Hop Hfin Hsome1).
    set (t := mkState (extensions s1) (subprotocols s1) (sock_in s1)
                      (sock_out s1) (sock_closed s1)
                      (fragmented_message s1 ++ payload c) (Some started)
                      (delivered s1)).
    assert (Ht : receive_frames (length middle) t
                 = (Ok middle, set_sock_in (sock_in s_m) t))
      by (apply (receive_frames_same_input _ s1 s_m t _ Hrest); reflexivity).
    rewrite (IH t _ started eq_refl Ht Hall').
    subst t. rewrite Hs1. cbn [map concat]. cbn.
    rewrite <- app_assoc. reflexivity.
Qed.

Lemma receive_frames_snoc (middle : list frame) :
  forall (s s_r : state) (last : frame),
    receive_frames (length (middle ++ [last])) s = (Ok (middle ++ [last]), s_r) ->
    exists s_m,
      receive_frames (length middle) s = (Ok middle, s_m)
      /\ receive_frame s_m = (Ok last, s_r).
Proof.
  induction middle as [|c middle IH]; intros s s_r last H.
  - cbn [app length] in H. apply receive_frames_cons in H.
    destruct H as (s1 & Hlast & Hnil). cbn [receive_frames] in Hnil.
    unfold ret in Hnil. injection Hnil as <-.
    exists s. split; [reflexivity | exact Hlast].
  - cbn [app length] in H. apply receive_frames_cons in H.
    destruct H as (s1 & Hc & Hrest).
    destruct (IH s1 s_r last Hrest) as (s_m & Hmid & Hlast).
    exists s_m. split; [|exact Hlast].
    cbn [length receive_frames]. unfold bind. rewrite Hc, Hmid. reflexivity.
Qed.

Lemma concat_payloads (first last : frame) (middle : list frame) :
  (payload first ++ concat (map payload middle)) ++ payload last
  = concat (map payload (first :: middle ++ [last])).
Proof.
  cbn [map concat]. rewrite map_app, concat_app. cbn [map concat].
  rewrite app_nil_r, app_assoc. reflexivity.
Qed.

(** C2, as stated, does not hold: a Text message in two fragments whose bytes
    are not UTF-8.  The handler is called once with the opcode and the bytes,
    it raises, and the loop is left with the opcode and the buffer of the
    message still set. *)
Lemma fragments_of_invalid_text_stay_pending :
  fragmented_opcode (connect [] [] [[x01; x01; x61; x80; x01; xff]]) = None
  /\ delivered (after_passes 2 (connect [] [] [[x01; x01; x61; x80; x01; xff]]))
     = [(1, [x61; xff])]
  /\ fragmented_opcode
       (after_passes 2 (connect [] [] [[x01; x01; x61; x80; x01; xff]]))
     = Some 1
  /\ fragmented_message
       (after_passes 2 (connect [] [] [[x01; x01; x61; x80; x01; xff]]))
     = [x61; xff].
Proof. vm_compute. repeat split. Qed.

(** C2, amended: when no message is being reassembled and the next frames on
    the wire are a Text or Binary frame without fin, continuation frames
    without fin and a continuation frame with fin, the handler is called
    exactly once in the passes over them, with the opcode of the first frame
    and the payloads concatenated in the order of receipt.  When the handler
    returns (a Binary message, or a Text message that is valid UTF-8) the
    loop goes on with the buffer emptied and the opcode reset, having echoed
    the message in one frame.  When the handler raises (a Text message that
    is not valid UTF-8) the server sends one Close frame with the status code
    1002 and the reason "Protocol error" and nothing else, and the loop is
    left with the opcode still set and the buffer still holding the
    message. *)
Theorem fragments_delivered_once
    (s s_r : state) (first : frame) (middle : list frame) (last : frame) :
  let frames := first :: middle ++ [last] in
  let message := concat (map payload frames) in
  fragmented_opcode s = None ->
  receive_frames (length frames) s = (Ok frames, s_r) ->
  opcode first = 1 \/ opcode first = 2 ->
  fin first = false ->
  Forall (fun c => opcode c = 0 /\ fin c = false) middle ->
  opcode last = 0 ->
  fin last = true ->
  len message <= ssize_max ->
  let s' := after_passes (length frames) s in
  delivered s' = delivered s ++ [(opcode first, message)]
  /\ (opcode first = 2 \/ (exists text, decode_utf8 message = Ok text) ->
      passes (length frames) s = Some s'
      /\ fragmented_opcode s' = None
      /\ fragmented_message s' = []
      /\ sock_out s'
         = sock_out s ++ [wire_header (opcode first) (len message) ++ message]
      /\ sock_in s' = sock_in s_r)
  /\ (opcode first = 1 -> (forall text, decode_utf8 message <> Ok text) ->
      (forall fuel, frame_loop (length frames + fuel) s = Some (Ok tt, s'))
      /\ fragmented_opcode s' = Some 1
      /\ fragmented_message s' = message
      /\ sock_out s' = sock_out s ++ [close_frame 1002 protocol_error]
      /\ sock_in s' = sock_in s_r).
Proof.
  intros frames message Hnone Hrecv Hop Hfin Hmiddle Hop_last Hfin_last Hlen s'.
  unfold ssize_max in Hlen.
  subst frames. cbn [length] in *.
  apply receive_frames_cons in Hrecv. destruct Hrecv as (s1 & Hfirst & Hrest).
  pose proof (receive_frame_state s s1 _ Hfirst) as Hs1.
  assert (Hnone1 : fragmented_opcode s1 = None) by (rewrite Hs1; exact Hnone).
  pose proof (on_frame_start first s1 Hop Hfin Hnone1) as Hstart.
  set (t1 := mkState (extensions s1) (subprotocols s1) (sock_in s1)
                     (sock_out s1) (sock_closed s1) (payload first)
                     (Some (opcode first)) (delivered s1)) in *.
  assert (Hrest1 : receive_frames (length (middle ++ [last])) t1
                   = (Ok (middle ++ [last]), set_sock_in (sock_in s_r) t1))
    by (apply (receive_frames_same_input _ s1 s_r t1 _ Hrest); reflexivity).
  apply receive_frames_snoc in Hrest1.
  destruct Hrest1 as (s_m & Hmid & Hlast).
  pose proof (passes_over_middle middle t1 s_m (opcode first) eq_refl Hmid
                Hmiddle) as Hpasses.
  set (t2 := mkState (extensions t1) (subprotocols t1) (sock_in s_m)
                     (sock_out t1) (sock_closed t1)
                     (fragmented_message t1 ++ concat (map payload middle))
                     (Some (opcode first)) (delivered t1)) in *.
  assert (Hlast2 : receive_frame t2
                   = (Ok last,
                      set_sock_in (sock_in (set_sock_in (sock_in s_r) t1)) t2))
    by (apply (receive_frame_same_input s_m _ t2 _ Hlast); reflexivity).
  set (t3 := set_sock_in (sock_in (set_sock_in (sock_in s_r) t1)) t2) in *.
  assert (Hmsg : fragmented_message t3 ++ payload last = message)
    by (apply concat_payloads).
  assert (Hone : passes (S (length middle)) s = Some t2).
  { cbn [passes]. rewrite (iteration_received s s1 first Hfirst), Hstart.
    exact Hpasses. }
  assert (Hlen_eq : length (middle ++ [last]) = (length middle + 1)%nat)
    by (rewrite length_app; reflexivity).
  assert (Hafter : s' = after_passes 1 t2).
  { subst s'. rewrite Hlen_eq.
    change (S (length middle + 1)) with (S (length middle) + 1)%nat.
    apply after_passes_add. exact Hone. }
  assert (Hall : passes (S (length (middle ++ [last]))) s = passes 1 t2).
  { rewrite Hlen_eq.
    change (S (length middle + 1)) with (S (length middle) + 1)%nat.
    apply passes_add. exact Hone. }
  assert (Hit : iteration t2 = on_frame last t3)
    by (apply iteration_received; exact Hlast2).
  assert (Hgood :
            opcode first = 2
            \/ (opcode first = 1 /\ exists text, decode_utf8 message = Ok text) ->
            iteration t2
            = (Ok false,
               mkState (extensions t3) (subprotocols t3) (sock_in t3)
                       (sock_out t3
                          ++ [wire_header (opcode first) (len message) ++ message])
                       (sock_closed t3) [] None
                       (delivered t3 ++ [(opcode first, message)]))).
  { intros Hok. rewrite Hit, <- Hmsg.
    apply (on_frame_final last t3 (opcode first) Hop_last Hfin_last eq_refl).
    - rewrite Hmsg. exact Hok.
    - rewrite Hmsg. lia. }
  assert (Hd : delivered t3 = delivered s) by (subst t3 t2 t1; rewrite Hs1; reflexivity).
  assert (Ho : sock_out t3 = sock_out s) by (subst t3 t2 t1; rewrite Hs1; reflexivity).
  assert (Hi : sock_in t3 = sock_in s_r) by reflexivity.
  assert (Hcase : (exists text, decode_utf8 message = Ok text)
                  \/ (forall text, decode_utf8 message <> Ok text)).
  { destruct (decode_utf8 message) as [text|e].
    - left. exists text. reflexivity.
    - right. intros text H. discriminate. }
  assert (Hreturns :
            opcode first = 2
            \/ (opcode first = 1 /\ exists text, decode_utf8 message = Ok text) ->
            delivered s' = delivered s ++ [(opcode first, message)]
            /\ passes (S (length (middle ++ [last]))) s = Some s'
            /\ fragmented_opcode s' = None
            /\ fragmented_message s' = []
            /\ sock_out s'
               = sock_out s
                   ++ [wire_header (opcode first) (len message) ++ message]
            /\ sock_in s' = sock_in s_r).
  { intros Hok. specialize (Hgood Hok).
    assert (Hs' : s' = mkState (extensions t3) (subprotocols t3) (sock_in t3)
                         (sock_out t3
                            ++ [wire_header (opcode first) (len message)
                                  ++ message])
                         (sock_closed t3) [] None
                         (delivered t3 ++ [(opcode first, message)])).
    { rewrite Hafter. cbn [after_passes]. rewrite Hgood. reflexivity. }
    split; [rewrite Hs'; cbn [delivered]; rewrite Hd; reflexivity|].
    split; [rewrite Hall; cbn [passes]; rewrite Hgood, Hs'; reflexivity|].
    rewrite Hs'. cbn [fragmented_opcode fragmented_message sock_out sock_in].
    rewrite Ho. repeat split. }
  destruct Hop as [H1|H2].
  - destruct Hcase as [Hvalid|Hinvalid].
    + assert (Hok : opcode first = 2
                    \/ (opcode first = 1
                        /\ exists text, decode_utf8 message = Ok text))
        by (right; split; assumption).
      destruct (Hreturns Hok) as (R1 & R2).
      split; [exact R1|]. split; [intros _; exact R2|].
      intros _ Hinvalid. destruct Hvalid as [text Htext].
      exfalso. apply (Hinvalid text). exact Htext.
    + (* a Text message that is not UTF-8 *)
      assert (Hbad : iteration t2
                     = (Ok true,
                        mkState (extensions t3) (subprotocols t3) (sock_in t3)
                                (sock_out t3 ++ [close_frame 1002 protocol_error])
                                (sock_closed t3) message (Some 1)
                                (delivered t3 ++ [(1, message)]))).
      { rewrite Hit, <- Hmsg.
        apply (on_frame_final_bad_text last t3 Hop_last Hfin_last).
        - subst t3 t2. cbn [fragmented_opcode set_sock_in]. rewrite H1. reflexivity.
        - rewrite Hmsg. exact Hinvalid. }
      assert (Hs' : s' = mkState (extensions t3) (subprotocols t3) (sock_in t3)
                           (sock_out t3 ++ [close_frame 1002 protocol_error])
                           (sock_closed t3) message (Some 1)
                           (delivered t3 ++ [(1, message)])).
      { rewrite Hafter. cbn [after_passes]. rewrite Hbad. reflexivity. }
      split; [|split].
      * rewrite Hs'. cbn [delivered]. rewrite Hd, H1. reflexivity.
      * intros [H2 | [text Htext]]; [rewrite H1 in H2; discriminate|].
        exfalso. apply (Hinvalid text). exact Htext.
      * intros _ _. split.
        { intros fuel.
          replace (S (length (middle ++ [last])) + fuel)%nat
            with (S (length middle) + S fuel)%nat
            by (rewrite length_app; cbn [length]; lia).
          rewrite (frame_loop_passes (S (length middle)) (S fuel) s t2 Hone).
          rewrite Hs'. apply (frame_loop_break t2 _ fuel Hbad). }
        rewrite Hs'. cbn [fragmented_opcode fragmented_message sock_out sock_in].
        rewrite Ho. repeat split.
  - assert (Hok : opcode first = 2
                  \/ (opcode first = 1
                      /\ exists text, decode_utf8 message = Ok text))
      by (left; exact H2).
    destruct (Hreturns Hok) as (R1 & R2).
    split; [exact R1|]. split; [intros _; exact R2|].
    intros H1. rewrite H2 in H1. discriminate.
Qed.

Lemma fragments_delivered_once_witness :
  let s := connect [] [] [[x01; x01; x61; x00; x01; x62; x80; x01; x63]] in
  let s' := after_passes 3 s in
  delivered s' = delivered s ++ [(1, [x61; x62; x63])]
  /\ (1 = 2 \/ (exists text, decode_utf8 [x61; x62; x63] = Ok text) ->
      passes 3 s = Some s'
      /\ fragmented_opcode s' = None
      /\ fragmented_message s' = []
      /\ sock_out s' = sock_out s ++ [[x81; x03; x61; x62; x63]]
      /\ sock_in s' = [[]])
  /\ (1 = 1 -> (forall text, decode_utf8 [x61; x62; x63] <> Ok text) ->
      (forall fuel, frame_loop (3 + fuel) s = Some (Ok tt, s'))
      /\ fragmented_opcode s' = Some 1
      /\ fragmented_message s' = [x61; x62; x63]
      /\ sock_out s' = sock_out s ++ [close_frame 1002 protocol_error]
      /\ sock_in s' = [[]]).
Proof.
  intros s s'.
  assert (Hm : Forall (fun c => opcode c = 0 /\ fin c = false)
                      [mkFrame false 0 false 1 [x62]])
    by (repeat constructor).
  assert (Hl : len [x61; x62; x63] <= ssize_max) by (vm_compute; discriminate).
  exact (fragments_delivered_once s (connect [] [] [[]])
           (mkFrame false 1 false 1 [x61])
           [mkFrame false 0 false 1 [x62]]
           (mkFrame true 0 false 1 [x63])
           eq_refl eq_refl (or_introl eq_refl) eq_refl Hm eq_refl eq_refl Hl).
Defined.

Lemma close_frame_echoed_then_closed_witness :
  let s0 := connect [] []
              [upgrade_request [lit "Sec-WebSocket-Key: dGhlIHNhbXBsZSBub25jZQ=="];
               [x88; x05; x03; xe8; x62; x79; x65]] in
  let sh := snd (handshake s0) in
  let s := set_fragmented_opcode None (set_fragmented_message [] sh) in
  let s1 := snd (receive_frame s) in
  let s2 := set_sock_out
              (sock_out s1 ++ [[x88; x05; x03; xe8; x62; x79; x65]]) s1 in
  iteration s = (Ok true, s2)
  /\ (forall fuel, handle_client (0 + S fuel) s0 = Some (close s2))
  /\ sock_closed (close s2) = true
  /\ sock_in (close s2) = sock_in s1.
Proof.
  intros s0 sh s s1 s2.
  assert (H1 : handshake s0 = (Ok tt, sh)) by (vm_compute; reflexivity).
  assert (H2 : passes 0 (set_fragmented_opcode None (set_fragmented_message [] sh))
               = Some s) by reflexivity.
  assert (H3 : receive_frame s
               = (Ok (mkFrame true 8 false 5 [x03; xe8; x62; x79; x65]), s1))
    by (vm_compute; reflexivity).
  exact (close_frame_echoed_then_closed s0 sh s s1 0
           (mkFrame true 8 false 5 [x03; xe8; x62; x79; x65])
           H1 H2 H3 eq_refl).
Defined.

(** ** The handshake *)

Lemma re_search_none (prefix s : str) :
  re_search prefix s = None <-> contains prefix s = false.
Proof.
  induction s as [|c s IH]; cbn [re_search contains].
  - destruct (starts_with prefix []); cbn [orb]; split; intros H;
      try discriminate; reflexivity.
  - destruct (starts_with prefix (c :: s)); cbn [orb].
    + split; intros H; discriminate.
    + exact IH.
Qed.

Lemma recv_state (n : Z) (s s' : state) (r : result bytes) :
  recv n s = (r, s') -> s' = set_sock_in (sock_in s') s.
Proof.
  intros H. pose proof (reader_recv n s s eq_refl) as R.
  rewrite H in R. cbn [fst snd] in R. congruence.
Qed.

(** C8, as stated, does not hold: a request with both upgrade headers and no
    header named [Sec-WebSocket-Key], whose header [X-Sec-WebSocket-Key]
    holds the searched text.  [re.search] matches inside that line, the
    handshake returns, and the 101 response is sent with the accept key
    computed from [abc]. *)
Lemma key_text_inside_other_header_accepted :
  let data := concat (map (fun line => line ++ crlf)
                          [lit "GET /chat HTTP/1.1"; lit "Host: localhost:8765";
                           lit "Upgrade: websocket"; lit "Connection: Upgrade";
                           lit "X-Sec-WebSocket-Key: abc"]) ++ crlf in
  let s := connect [] [] [upgrade_request [lit "X-Sec-WebSocket-Key: abc"]] in
  decode_utf8 (upgrade_request [lit "X-Sec-WebSocket-Key: abc"]) = Ok data
  /\ has_header (lit "Upgrade") data = true
  /\ has_header (lit "Connection") data = true
  /\ contains (lit "Upgrade: websocket") data = true
  /\ contains (lit "Connection: Upgrade") data = true
  /\ has_header (lit "Sec-WebSocket-Key") data = false
  /\ fst (handshake s) = Ok tt
  /\ sock_out (snd (handshake s))
     = [map byte_of
            (lit "HTTP/1.1 101 Switching Protocols" ++ crlf
             ++ lit "Upgrade: websocket" ++ crlf
             ++ lit "Connection: Upgrade" ++ crlf
             ++ lit "Sec-WebSocket-Accept: zwKd5BnoWxQ6GxTxxSmBSHGHX9M=" ++ crlf
             ++ crlf)].
Proof. vm_compute. repeat split. Qed.

(** C8, amended: an upgrade request whose text, as the server reads it (one
    [recv] of at most 1024 bytes, decoded as UTF-8), holds [Upgrade: websocket]
    and [Connection: Upgrade] and nowhere the text [Sec-WebSocket-Key: ]
    makes [handshake] raise (the [AttributeError] of calling [group] on the
    [None] that [re.search] returned); nothing is sent to the client and
    [handle_client] closes the socket. *)
Theorem handshake_without_key_sends_nothing
    (s s1 : state) (raw : bytes) (data : str) (fuel : nat) :
  recv 1024 s = (Ok raw, s1) ->
  decode_utf8 raw = Ok data ->
  contains (lit "Upgrade: websocket") data = true ->
  contains (lit "Connection: Upgrade") data = true ->
  contains (lit "Sec-WebSocket-Key: ") data = false ->
  handshake s = (Raise AttributeError, s1)
  /\ handle_client fuel s = Some (close s1)
  /\ sock_out (close s1) = sock_out s
  /\ sock_closed (close s1) = true.
Proof.
  intros Hrecv Hdec Hup Hconn Hkey.
  assert (Hhs : handshake s = (Raise AttributeError, s1)).
  { unfold handshake, bind at 1. rewrite Hrecv.
    unfold bind at 1. unfold lift at 1. rewrite Hdec, Hup, Hconn. cbn [andb].
    apply re_search_none in Hkey. unfold bind at 1. rewrite Hkey.
    reflexivity. }
  split; [exact Hhs|]. split.
  - unfold handle_client. rewrite Hhs. reflexivity.
  - rewrite (recv_state _ _ _ _ Hrecv). split; reflexivity.
Qed.

Lemma handshake_without_key_sends_nothing_witness :
  let s := connect [] [] [upgrade_request [lit "Origin: http://example.com"]] in
  let s1 := connect [] [] [[]] in
  handshake s = (Raise AttributeError, s1)
  /\ handle_client 5 s = Some (close s1)
  /\ sock_out (close s1) = sock_out s
  /\ sock_closed (close s1) = true.
Proof.
  intros s s1.
  assert (H1 : recv 1024 s
               = (Ok (upgrade_request [lit "Origin: http://example.com"]), s1))
    by (vm_compute; reflexivity).
  assert (H2 : decode_utf8 (upgrade_request [lit "Origin: http://example.com"])
               = Ok (map byte_val
                         (upgrade_request [lit "Origin: http://example.com"])))
    by (vm_compute; reflexivity).
  exact (handshake_without_key_sends_nothing s s1 _ _ 5 H1 H2
           eq_refl eq_refl eq_refl).
Defined.

(** C9, on the code: two connections to one server.  The first handshake
    stores what it negotiated in the fields of the server object; the second
    handshake, on the same object, replaces both lists, so what the first
    connection negotiated is no longer there. *)
Theorem handshake_overwrites_shared_negotiation :
  let first :=
    snd (handshake
           (connect [] []
              [upgrade_request
                 [lit "Sec-WebSocket-Key: dGhlIHNhbXBsZSBub25jZQ==";
                  lit "Sec-WebSocket-Extensions: permessage-deflate";
                  lit "Sec-WebSocket-Protocol: chat"]])) in
  let second :=
    snd (handshake
           (connect (extensions first) (subprotocols first)
              [upgrade_request
                 [lit "Sec-WebSocket-Key: dGhlIHNhbXBsZSBub25jZQ==";
                  lit "Sec-WebSocket-Extensions: x-webkit-deflate-frame";
                  lit "Sec-WebSocket-Protocol: mqtt"]])) in
  extensions first = [lit "permessage-deflate"]
  /\ subprotocols first = [lit "chat"]
  /\ extensions second = [lit "x-webkit-deflate-frame"]
  /\ subprotocols second = [lit "mqtt"].
Proof. vm_compute. repeat split. Qed.

(** ** Masking *)

Lemma rmap_ok {A B : Type} (f : A -> result B) (g : A -> B) (l : list A) :
  (forall a, In a l -> f a = Ok (g a)) -> rmap f l = Ok (map g l).
Proof.
  induction l as [|a l IH]; intros H; cbn [rmap map]; [reflexivity|].
  rewrite (H a (or_introl eq_refl)). cbn [rbind].
  rewrite IH by (intros b Hb; apply H; right; exact Hb). reflexivity.
Qed.

Lemma map_seq_nth {A B : Type} (g : nat -> A -> B) (d : A) (l : list A)
    (start : nat) (f : nat -> B) :
  (forall i, (i < length l)%nat -> f (start + i)%nat = g (start + i)%nat (nth i l d)) ->
  map f (seq start (length l)) = map (fun ip => g (fst ip) (snd ip))
                                      (combine (seq start (length l)) l).
Proof.
  revert start. induction l as [|a l IH]; intros start H; [reflexivity|].
  cbn [length seq map combine fst snd]. f_equal.
  - specialize (H 0%nat). rewrite Nat.add_0_r in H. apply H. cbn [length]. lia.
  - apply IH. intros i Hi. specialize (H (S i)).
    replace (start + S i)%nat with (S start + i)%nat in H by lia.
    apply H. cbn [length]. lia.
Qed.

(** With a key of four bytes [unmask_payload] never raises: it is the
    exclusive or with the key repeated. *)
Lemma unmask_payload_eq (payload key : bytes) :
  length key = 4%nat ->
  unmask_payload payload (Some key) = Ok (mask_with key payload).
Proof.
  intros Hkey. unfold unmask_payload, mask_with.
  rewrite (rmap_ok _ (fun i => byte_of (Z.lxor (byte_val (nth i payload x00))
                                  (byte_val (nth (Nat.modulo i 4) key x00))))).
  - f_equal.
    apply (map_seq_nth
             (fun i p => byte_of (Z.lxor (byte_val p)
                                   (byte_val (nth (Nat.modulo i 4) key x00))))
             x00 payload 0).
    intros i Hi. reflexivity.
  - intros i Hi. apply in_seq in Hi. unfold index.
    rewrite (nth_error_nth' payload x00) by lia.
    assert (Hm : (Nat.modulo i 4 < 4)%nat) by (apply Nat.mod_upper_bound; lia).
    rewrite (nth_error_nth' key x00) by lia. reflexivity.
Qed.

Lemma mask_with_length (key payload : bytes) :
  length (mask_with key payload) = length payload.
Proof.
  unfold mask_with. rewrite length_map, length_combine, length_seq. lia.
Qed.

Lemma byte_xor_twice (p k : byte) :
  byte_of (Z.lxor (byte_val (byte_of (Z.lxor (byte_val p) (byte_val k))))
                  (byte_val k)) = p.
Proof.
  pose proof (byte_val_range p) as Hp. pose proof (byte_val_range k) as Hk.
  assert (R : 0 <= Z.lxor (byte_val p) (byte_val k) < 256).
  { split; [apply Z.lxor_nonneg; lia|].
    destruct (Z.eq_dec (Z.lxor (byte_val p) (byte_val k)) 0) as [->|Hnz]; [lia|].
    apply (Z.log2_lt_cancel _ 256). change (Z.log2 256) with 8.
    pose proof (Z.log2_lxor (byte_val p) (byte_val k)) as L.
    assert (Z.log2 (byte_val p) < 8).
    { destruct (Z.eq_dec (byte_val p) 0) as [->|]; [reflexivity|].
      apply Z.log2_lt_pow2; lia. }
    assert (Z.log2 (byte_val k) < 8).
    { destruct (Z.eq_dec (byte_val k) 0) as [->|]; [reflexivity|].
      apply Z.log2_lt_pow2; lia. }
    lia. }
  rewrite byte_val_of by exact R.
  rewrite Z.lxor_assoc, Z.lxor_nilpotent, Z.lxor_0_r. apply byte_of_val.
Qed.

Lemma mask_with_nth (key payload : bytes) (i : nat) :
  (i < length payload)%nat ->
  nth i (mask_with key payload) x00
  = byte_of (Z.lxor (byte_val (nth i payload x00))
                    (byte_val (nth (Nat.modulo i 4) key x00))).
Proof.
  intros Hi. unfold mask_with.
  rewrite (nth_indep _ x00
             (byte_of (Z.lxor (byte_val (snd (0%nat, x00)))
                              (byte_val (nth (Nat.modulo (fst (0%nat, x00)) 4) key x00)))))
    by (rewrite length_map, length_combine, length_seq; lia).
  rewrite (map_nth (fun ip => byte_of (Z.lxor (byte_val (snd ip))
                      (byte_val (nth (Nat.modulo (fst ip) 4) key x00))))).
  rewrite combine_nth by (rewrite length_seq; reflexivity).
  rewrite seq_nth by lia. reflexivity.
Qed.

Lemma mask_with_twice (key payload : bytes) :
  mask_with key (mask_with key payload) = payload.
Proof.
  apply (nth_ext _ _ x00 x00).
  - rewrite !mask_with_length. reflexivity.
  - intros i Hi. rewrite !mask_with_length in Hi.
    rewrite mask_with_nth by (rewrite mask_with_length; exact Hi).
    rewrite mask_with_nth by exact Hi. apply byte_xor_twice.
Qed.

(** X1: unmasking is an involution.  With a masking key of four bytes,
    [unmask_payload] applied twice gives the payload back, and neither call
    raises. *)
Theorem unmask_payload_involution (payload key : bytes) :
  length key = 4%nat ->
  exists masked,
    unmask_payload payload (Some key) = Ok masked
    /\ length masked = length payload
    /\ unmask_payload masked (Some key) = Ok payload.
Proof.
  intros Hkey. exists (mask_with key payload).
  rewrite !unmask_payload_eq by exact Hkey.
  rewrite mask_with_twice, mask_with_length. repeat split.
Qed.

Lemma unmask_payload_involution_witness :
  exists masked,
    unmask_payload [x68; x65; x6c; x6c; x6f] (Some [x01; x02; x03; x04])
    = Ok masked
    /\ length masked = length [x68; x65; x6c; x6c; x6f]
    /\ unmask_payload masked (Some [x01; x02; x03; x04])
       = Ok [x68; x65; x6c; x6c; x6f].
Proof.
  exact (unmask_payload_involution [x68; x65; x6c; x6c; x6f]
           [x01; x02; x03; x04] eq_refl).
Defined.

Lemma rmap_raise {A B : Type} (f : A -> result B) (e : exn) (l : list A) :
  (exists a, In a l /\ f a = Raise e) ->
  (forall a, In a l -> (exists b, f a = Ok b) \/ f a = Raise e) ->
  rmap f l = Raise e.
Proof.
  induction l as [|a l IH]; intros [x [Hin Hx]] Hall; [destruct Hin|].
  cbn [rmap].
  destruct (Hall a (or_introl eq_refl)) as [[b Hb]|Hr].
  - rewrite Hb. cbn [rbind]. rewrite IH; [reflexivity | | ].
    + destruct Hin as [->|Hin]; [congruence|]. exists x. split; assumption.
    + intros y Hy. apply Hall. right. exact Hy.
  - rewrite Hr. reflexivity.
Qed.

(** X2: a masking key cut short.  When fewer than four bytes of key were
    read and the payload is longer than the key, [unmask_payload] raises
    [IndexError]. *)
Theorem unmask_payload_short_key (payload key : bytes) :
  (length key < 4)%nat -> (length key < length payload)%nat ->
  unmask_payload payload (Some key) = Raise IndexError.
Proof.
  intros Hshort Hlong. unfold unmask_payload. apply rmap_raise.
  - exists (length key). split; [apply in_seq; lia|].
    unfold index. rewrite (nth_error_nth' payload x00) by lia. cbn [rbind].
    rewrite Nat.mod_small by lia.
    rewrite (proj2 (nth_error_None key (length key))) by lia. reflexivity.
  - intros i Hi. apply in_seq in Hi. unfold index.
    rewrite (nth_error_nth' payload x00) by lia. cbn [rbind].
    destruct (nth_error key (Nat.modulo i 4)) as [k|]; cbn [rbind].
    + left. eexists. reflexivity.
    + right. reflexivity.
Qed.

Lemma unmask_payload_short_key_witness :
  unmask_payload [x61; x62; x63] (Some [x01; x02]) = Raise IndexError.
Proof.
  apply (unmask_payload_short_key [x61; x62; x63] [x01; x02]);
    cbn [length]; lia.
Defined.

(** ** Frames from a client *)

Lemma below_128 (P : Z -> bool) :
  forallb P (map Z.of_nat (seq 0 128)) = true ->
  forall n, 0 <= n < 128 -> P n = true.
Proof.
  intros H n Hn. rewrite forallb_forall in H. apply H.
  apply in_map_iff. exists (Z.to_nat n). split; [lia|]. apply in_seq. lia.
Qed.

Lemma first_byte_bits (fin : bool) (opcode : Z) :
  0 <= opcode <= 15 ->
  let c := byte_val (byte_of ((if fin then 128 else 0) + opcode)) in
  negb (Z.land c 128 =? 0) = fin /\ Z.land c 15 = opcode.
Proof.
  intros Hop c.
  set (P := fun o => negb ((0 <=? o) && (o <=? 15))
                    || (Bool.eqb
                          (negb (Z.land (byte_val (byte_of
                                   ((if fin then 128 else 0) + o))) 128 =? 0))
                          fin
                        && (Z.land (byte_val (byte_of
                              ((if fin then 128 else 0) + o))) 15 =? o))).
  assert (Hb : P opcode = true).
  { apply (below_128 P); [destruct fin; vm_compute; reflexivity | lia]. }
  subst P. cbv beta in Hb.
  destruct (Z.leb_spec 0 opcode) as [L0|L0]; [|lia].
  destruct (Z.leb_spec opcode 15) as [L1|L1]; [|lia].
  cbn [andb negb orb] in Hb. fold c in Hb. rename Hb into H.
  apply andb_prop in H. destruct H as [H1 H2].
  split; [apply Bool.eqb_prop; exact H1 | apply Z.eqb_eq; exact H2].
Qed.

Lemma masked_length_byte (n : Z) :
  0 <= n < 128 ->
  let c := byte_val (byte_of (128 + n)) in
  (Z.land c 128 =? 0) = false /\ Z.land c 127 = n.
Proof.
  intros Hn c.
  set (P := fun m => negb (Z.land (byte_val (byte_of (128 + m))) 128 =? 0)
                    && (Z.land (byte_val (byte_of (128 + m))) 127 =? m)).
  assert (H : P n = true)
    by (apply (below_128 P); [vm_compute; reflexivity | exact Hn]).
  subst P. cbv beta in H. fold c in H.
  apply andb_prop in H. destruct H as [H1 H2].
  split; [apply negb_true_iff; exact H1 | apply Z.eqb_eq; exact H2].
Qed.

(** X3: reading a frame a client sent.  For every fin bit, opcode of four
    bits, key of four bytes and payload, [receive_frame] on a stream that
    holds the masked frame returns the fin bit, the opcode, the declared
    length and the payload unmasked, and leaves what follows the frame. *)
Theorem receive_client_frame (fin : bool) (opcode : Z) (key payload more : bytes)
    (rest : list bytes) (s : state) :
  0 <= opcode <= 15 ->
  length key = 4%nat ->
  len payload <= ssize_max ->
  sock_in s = (client_frame fin opcode key payload ++ more) :: rest ->
  receive_frame s
  = (Ok (mkFrame fin opcode true (len payload) payload),
     set_sock_in (more :: rest) s).
Proof.
  intros Hop Hkey Hmax Hin.
  pose proof (len_nonneg payload) as Hl.
  destruct (first_byte_bits fin opcode Hop) as [Hfin Hopc].
  assert (Hklen : len key = 4) by (unfold len; rewrite Hkey; reflexivity).
  assert (Hmlen : len (mask_with key payload) = len payload)
    by (unfold len; rewrite mask_with_length; reflexivity).
  unfold ssize_max in Hmax.
  unfold receive_frame, bind at 1.
  unfold client_frame in Hin. cbv zeta in Hin.
  destruct (Z.leb_spec (len payload) 125) as [H125|H125].
  - rewrite (recv_app 2 [byte_of ((if fin then 128 else 0) + opcode);
                         byte_of (128 + len payload)]
               (key ++ mask_with key payload ++ more) rest s eq_refl).
    2:{ unfold ssize_max. lia. }
    2:{ rewrite Hin. cbn [app]. rewrite <- !app_assoc. reflexivity. }
    unfold bind, lift, index. cbn [nth_error].
    rewrite Hfin, Hopc.
    destruct (masked_length_byte (len payload)) as [-> ->]; [lia|].
    cbn [negb].
    destruct (Z.eqb_spec (len payload) 126); [lia|].
    destruct (Z.eqb_spec (len payload) 127); [lia|].
    unfold ret.
    rewrite (recv_app 4 key (mask_with key payload ++ more) rest _ Hklen)
      by (unfold ssize_max; lia || reflexivity).
    rewrite (recv_app (len payload) (mask_with key payload) more rest _ Hmlen)
      by (unfold ssize_max; lia || reflexivity).
    rewrite unmask_payload_eq, mask_with_twice by exact Hkey.
    reflexivity.
  - destruct (Z.leb_spec (len payload) 65535) as [H64k|H64k].
    + rewrite (recv_app 2 [byte_of ((if fin then 128 else 0) + opcode);
                           byte_of 254]
                 (be_bytes 2 (len payload) ++ key ++ mask_with key payload ++ more)
                 rest s eq_refl).
      2:{ unfold ssize_max. lia. }
      2:{ rewrite Hin. cbn [app]. rewrite <- !app_assoc. reflexivity. }
      unfold bind, lift, index. cbn [nth_error].
      rewrite Hfin, Hopc.
      change (Z.land (byte_val (byte_of 254)) 128) with 128.
      change (Z.land (byte_val (byte_of 254)) 127) with 126.
      cbn [Z.eqb negb Pos.eqb].
      rewrite (recv_app 2 (be_bytes 2 (len payload))
                 (key ++ mask_with key payload ++ more) rest _ eq_refl)
        by (unfold ssize_max; lia || reflexivity).
      unfold struct_unpack_H.
      rewrite (unpack_pack 2 (len payload) (be_bytes 2 (len payload))).
      2:{ unfold pack_uint. change (2 ^ (8 * Z.of_nat 2)) with 65536.
          destruct (Z.leb_spec 0 (len payload)); [|lia].
          destruct (Z.ltb_spec (len payload) 65536); [|lia]. reflexivity. }
      unfold ret.
      rewrite (recv_app 4 key (mask_with key payload ++ more) rest _ Hklen)
        by (unfold ssize_max; lia || reflexivity).
      rewrite (recv_app (len payload) (mask_with key payload) more rest _ Hmlen)
        by (unfold ssize_max; lia || reflexivity).
      rewrite unmask_payload_eq, mask_with_twice by exact Hkey.
      reflexivity.
    + rewrite (recv_app 2 [byte_of ((if fin then 128 else 0) + opcode);
                           byte_of 255]
                 (be_bytes 8 (len payload) ++ key ++ mask_with key payload ++ more)
                 rest s eq_refl).
      2:{ unfold ssize_max. lia. }
      2:{ rewrite Hin. cbn [app]. rewrite <- !app_assoc. reflexivity. }
      unfold bind, lift, index. cbn [nth_error].
      rewrite Hfin, Hopc.
      change (Z.land (byte_val (byte_of 255)) 128) with 128.
      change (Z.land (byte_val (byte_of 255)) 127) with 127.
      cbn [Z.eqb negb Pos.eqb].
      rewrite (recv_app 8 (be_bytes 8 (len payload))
                 (key ++ mask_with key payload ++ more) rest _ eq_refl)
        by (unfold ssize_max; lia || reflexivity).
      unfold struct_unpack_Q.
      rewrite (unpack_pack 8 (len payload) (be_bytes 8 (len payload))).
      2:{ unfold pack_uint. change (2 ^ (8 * Z.of_nat 8)) with (2 ^ 64).
          destruct (Z.leb_spec 0 (len payload)); [|lia].
          destruct (Z.ltb_spec (len payload) (2 ^ 64)); [|lia]. reflexivity. }
      unfold ret.
      rewrite (recv_app 4 key (mask_with key payload ++ more) rest _ Hklen)
        by (unfold ssize_max; lia || reflexivity).
      rewrite (recv_app (len payload) (mask_with key payload) more rest _ Hmlen)
        by (unfold ssize_max; lia || reflexivity).
      rewrite unmask_payload_eq, mask_with_twice by exact Hkey.
      reflexivity.
Qed.

Lemma receive_client_frame_witness :
  receive_frame
    (connect [] []
       [client_frame false 1 [x37; xfa; x21; x3d] [x48; x65; x6c; x6c; x6f]
          ++ [x8a; x80]])
  = (Ok (mkFrame false 1 true 5 [x48; x65; x6c; x6c; x6f]),
     set_sock_in [[x8a; x80]]
       (connect [] []
          [client_frame false 1 [x37; xfa; x21; x3d] [x48; x65; x6c; x6c; x6f]
             ++ [x8a; x80]])).
Proof.
  assert (Hl : len [x48; x65; x6c; x6c; x6f] <= ssize_max)
    by (vm_compute; discriminate).
  apply (receive_client_frame false 1 [x37; xfa; x21; x3d]
           [x48; x65; x6c; x6c; x6f] [x8a; x80] []);
    [lia | reflexivity | exact Hl | reflexivity].
Defined.

(** The worked example of RFC 6455, section 5.7: the masked text frame
    "Hello". *)
Example client_frame_rfc :
  client_frame true 1 [x37; xfa; x21; x3d] [x48; x65; x6c; x6c; x6f]
  = [x81; x85; x37; xfa; x21; x3d; x7f; x9f; x4d; x51; x58].
Proof. vm_compute. reflexivity. Qed.

(** ** What a pass does, frame by frame *)

Lemma recv_from_nothing (n : nat) (pieces : list bytes) :
  concat pieces = [] -> fst (recv_from n pieces) = [].
Proof.
  intros H. induction pieces as [|piece rest IH].
  - destruct n; reflexivity.
  - cbn [concat] in H. apply app_eq_nil in H. destruct H as [-> Hrest].
    destruct n; [reflexivity|]. cbn [recv_from]. apply IH. exact Hrest.
Qed.

(** X4: the client has closed its side.  With nothing left to read,
    [receive_frame] raises and the pass answers with a Close frame of code
    1002 and leaves the loop, without calling the handler. *)
Theorem end_of_stream_closes_1002 (s : state) :
  concat (sock_in s) = [] ->
  exists s1,
    receive_frame s = (Raise (Exception "Client closed connection"), s1)
    /\ iteration s
       = (Ok true,
          set_sock_out (sock_out s1 ++ [close_frame 1002 protocol_error]) s1)
    /\ sock_out s1 = sock_out s
    /\ delivered s1 = delivered s.
Proof.
  intros Hempty.
  destruct (recv 2 s) as [r s1] eqn:Hrecv.
  assert (Hr : r = Ok []).
  { unfold recv in Hrecv. cbn [Z.gtb Z.ltb Z.compare] in Hrecv.
    change (2 >? ssize_max) with false in Hrecv.
    pose proof (recv_from_nothing (Z.to_nat 2) (sock_in s) Hempty) as Hn.
    destruct (recv_from (Z.to_nat 2) (sock_in s)) as [d rest].
    cbn [fst] in Hn. subst d. injection Hrecv as <- _. reflexivity. }
  subst r. exists s1.
  assert (Hraise : receive_frame s
                   = (Raise (Exception "Client closed connection"), s1)).
  { unfold receive_frame, bind. rewrite Hrecv. reflexivity. }
  split; [exact Hraise|]. split.
  - unfold iteration. rewrite Hraise. apply on_exception_eq.
  - rewrite (recv_state _ _ _ _ Hrecv). split; reflexivity.
Qed.

Lemma end_of_stream_closes_1002_witness :
  exists s1,
    receive_frame (connect [] [] [])
    = (Raise (Exception "Client closed connection"), s1)
    /\ iteration (connect [] [] [])
       = (Ok true,
          set_sock_out (sock_out s1 ++ [close_frame 1002 protocol_error]) s1)
    /\ sock_out s1 = sock_out (connect [] [] [])
    /\ delivered s1 = delivered (connect [] [] []).
Proof. exact (end_of_stream_closes_1002 (connect [] [] []) eq_refl). Defined.

(** X5: a frame whose opcode is none of 0, 1, 2, 8, 9, 10 is answered with a
    Close frame of code 1002, and the loop is left; the handler is not
    called. *)
Theorem unsupported_opcode_closes_1002 (s s1 : state) (f : frame) :
  receive_frame s = (Ok f, s1) ->
  opcode f <> 0 -> opcode f <> 1 -> opcode f <> 2 ->
  opcode f <> 8 -> opcode f <> 9 -> opcode f <> 10 ->
  iteration s
  = (Ok true, set_sock_out (sock_out s1 ++ [close_frame 1002 protocol_error]) s1)
  /\ delivered s1 = delivered s.
Proof.
  intros Hrecv H0 H1 H2 H8 H9 H10. split.
  - rewrite (iteration_received s s1 f Hrecv). unfold on_frame, dispatch.
    apply Z.eqb_neq in H0, H1, H2, H8, H9, H10.
    rewrite H0, H1, H2, H8, H9, H10. cbn [orb]. unfold raise.
    apply on_exception_eq.
  - rewrite (receive_frame_state s s1 _ Hrecv). reflexivity.
Qed.

Lemma unsupported_opcode_closes_1002_witness :
  iteration (connect [] [] [[x83; x00]])
  = (Ok true,
     set_sock_out
       (sock_out (connect [] [] [[]]) ++ [close_frame 1002 protocol_error])
       (connect [] [] [[]]))
  /\ delivered (connect [] [] [[]]) = delivered (connect [] [] [[x83; x00]]).
Proof.
  assert (H : receive_frame (connect [] [] [[x83; x00]])
              = (Ok (mkFrame true 3 false 0 []), connect [] [] [[]]))
    by (vm_compute; reflexivity).
  apply (unsupported_opcode_closes_1002 _ _ _ H); cbn [opcode]; lia.
Defined.

(** X6: a continuation frame when no message has been started is answered
    with a Close frame of code 1002, and the loop is left; the handler is not
    called and the payload is dropped. *)
Theorem continuation_without_start_closes_1002 (s s1 : state) (f : frame) :
  fragmented_opcode s = None ->
  receive_frame s = (Ok f, s1) ->
  opcode f = 0 ->
  iteration s
  = (Ok true, set_sock_out (sock_out s1 ++ [close_frame 1002 protocol_error]) s1)
  /\ delivered s1 = delivered s
  /\ fragmented_message s1 = fragmented_message s.
Proof.
  intros Hnone Hrecv Hop.
  pose proof (receive_frame_state s s1 _ Hrecv) as Hs1. split.
  - rewrite (iteration_received s s1 f Hrecv). unfold on_frame, dispatch.
    rewrite Hop. cbn [Z.eqb]. unfold bind, get.
    assert (Hn1 : fragmented_opcode s1 = None) by (rewrite Hs1; exact Hnone).
    rewrite Hn1. cbn [handle_continuation_frame]. unfold raise. apply on_exception_eq.
  - rewrite Hs1. split; reflexivity.
Qed.

Lemma continuation_without_start_closes_1002_witness :
  iteration (connect [] [] [[x80; x01; x61]])
  = (Ok true,
     set_sock_out
       (sock_out (connect [] [] [[]]) ++ [close_frame 1002 protocol_error])
       (connect [] [] [[]]))
  /\ delivered (connect [] [] [[]]) = delivered (connect [] [] [[x80; x01; x61]])
  /\ fragmented_message (connect [] [] [[]])
     = fragmented_message (connect [] [] [[x80; x01; x61]]).
Proof.
  assert (H : receive_frame (connect [] [] [[x80; x01; x61]])
              = (Ok (mkFrame true 0 false 1 [x61]), connect [] [] [[]]))
    by (vm_compute; reflexivity).
  exact (continuation_without_start_closes_1002
           (connect [] [] [[x80; x01; x61]]) _ _ eq_refl H eq_refl).
Defined.

(** X7: a Pong frame changes nothing: no byte is sent, the handler is not
    called, the message being reassembled is as it was, and the loop goes
    on. *)
Theorem pong_is_ignored (s s1 : state) (f : frame) :
  receive_frame s = (Ok f, s1) ->
  opcode f = 10 ->
  iteration s = (Ok false, s1)
  /\ sock_out s1 = sock_out s
  /\ delivered s1 = delivered s
  /\ fragmented_message s1 = fragmented_message s
  /\ fragmented_opcode s1 = fragmented_opcode s.
Proof.
  intros Hrecv Hop. split.
  - rewrite (iteration_received s s1 f Hrecv). unfold on_frame, dispatch.
    rewrite Hop. reflexivity.
  - rewrite (receive_frame_state s s1 _ Hrecv). repeat split.
Qed.

Lemma pong_is_ignored_witness :
  iteration (connect [] [] [[x8a; x01; x61]]) = (Ok false, connect [] [] [[]])
  /\ sock_out (connect [] [] [[]]) = sock_out (connect [] [] [[x8a; x01; x61]])
  /\ delivered (connect [] [] [[]]) = delivered (connect [] [] [[x8a; x01; x61]])
  /\ fragmented_message (connect [] [] [[]])
     = fragmented_message (connect [] [] [[x8a; x01; x61]])
  /\ fragmented_opcode (connect [] [] [[]])
     = fragmented_opcode (connect [] [] [[x8a; x01; x61]]).
Proof.
  assert (H : receive_frame (connect [] [] [[x8a; x01; x61]])
              = (Ok (mkFrame true 10 false 1 [x61]), connect [] [] [[]]))
    by (vm_compute; reflexivity).
  exact (pong_is_ignored _ _ _ H eq_refl).
Defined.

(** X8: a whole message in one frame.  A Text or Binary frame with fin, when
    no message is being reassembled, is handed to the handler once and echoed
    in one frame of the same type with the same bytes (Text must be valid
    UTF-8); the loop goes on and no reassembly is started. *)
Theorem unfragmented_message_echoed (s s1 : state) (f : frame) :
  fragmented_opcode s = None ->
  receive_frame s = (Ok f, s1) ->
  fin f = true ->
  opcode f = 2 \/ (opcode f = 1 /\ exists text, decode_utf8 (payload f) = Ok text) ->
  iteration s
  = (Ok false,
     mkState (extensions s) (subprotocols s) (sock_in s1)
             (sock_out s
                ++ [wire_header (opcode f) (len (payload f)) ++ payload f])
             (sock_closed s) (fragmented_message s) None
             (delivered s ++ [(opcode f, payload f)])).
Proof.
  intros Hnone Hrecv Hfin Hok.
  pose proof (receive_frame_state s s1 _ Hrecv) as Hs1.
  pose proof (receive_frame_payload_bound s s1 f Hrecv) as [B1 B2].
  unfold ssize_max in B2.
  rewrite (iteration_received s s1 f Hrecv). unfold on_frame, dispatch.
  assert (E0 : (opcode f =? 0) = false)
    by (apply Z.eqb_neq; destruct Hok as [?|[? _]]; lia).
  assert (E12 : (opcode f =? 1) || (opcode f =? 2) = true).
  { destruct Hok as [-> | [-> _]]; reflexivity. }
  rewrite E0, E12, Hfin. cbn [negb]. unfold bind at 1. unfold bind at 1.
  unfold bind at 1. unfold get.
  assert (Hn1 : fragmented_opcode s1 = None) by (rewrite Hs1; exact Hnone).
  rewrite Hn1. cbn [handle_data_frame]. rewrite Hfin.
  rewrite (handle_complete_message_ok (opcode f) (payload f) s1 Hok) by lia.
  unfold ret. rewrite Hs1. cbn. rewrite Hnone. reflexivity.
Qed.

Lemma unfragmented_message_echoed_witness :
  iteration (connect [] [] [[x81; x02; x68; x69]])
  = (Ok false,
     mkState [] [] [[]] [[x81; x02; x68; x69]] false [] None
             [(1, [x68; x69])]).
Proof.
  assert (H : receive_frame (connect [] [] [[x81; x02; x68; x69]])
              = (Ok (mkFrame true 1 false 2 [x68; x69]), connect [] [] [[]]))
    by (vm_compute; reflexivity).
  assert (Ht : decode_utf8 [x68; x69] = Ok [104; 105]) by reflexivity.
  exact (unfragmented_message_echoed
           (connect [] [] [[x81; x02; x68; x69]]) _ _ eq_refl H eq_refl
           (or_intror (conj eq_refl (ex_intro _ _ Ht)))).
Defined.

(** ** Termination of the frame loop *)

Lemma recv_from_concat (n : nat) (pieces : list bytes) :
  fst (recv_from n pieces) ++ concat (snd (recv_from n pieces)) = concat pieces.
Proof.
  induction pieces as [|piece rest IH]; destruct n as [|n]; try reflexivity.
  destruct piece as [|x piece]; [exact IH|].
  cbn [recv_from fst snd concat]. rewrite app_assoc, firstn_skipn. reflexivity.
Qed.

Lemma recv_pending (n : Z) (s s' : state) (data : bytes) :
  recv n s = (Ok data, s') ->
  (pending_bytes s' + length data = pending_bytes s)%nat.
Proof.
  unfold recv. destruct (n >? ssize_max); [discriminate|].
  destruct (n <? 0); [discriminate|].
  pose proof (recv_from_concat (Z.to_nat n) (sock_in s)) as C.
  destruct (recv_from (Z.to_nat n) (sock_in s)) as [d rest].
  cbn [fst snd] in C. intros E. injection E as <- <-.
  unfold pending_bytes. cbn [sock_in set_sock_in]. rewrite <- C, length_app. lia.
Qed.

Lemma shrinks_recv (n : Z) : shrinks (recv n).
Proof.
  intros s. destruct (recv n s) as [[d|e] s'] eqn:E; cbn [snd].
  - pose proof (recv_pending n s s' d E). lia.
  - unfold recv in E. destruct (n >? ssize_max).
    { injection E as _ <-. lia. }
    destruct (n <? 0). { injection E as _ <-. lia. }
    destruct (recv_from (Z.to_nat n) (sock_in s)). discriminate.
Qed.

Lemma shrinks_ret {A : Type} (a : A) : shrinks (ret a).
Proof. intros s. cbn. lia. Qed.

Lemma shrinks_lift {A : Type} (r : result A) : shrinks (lift r).
Proof. intros s. cbn. lia. Qed.

Lemma shrinks_bind {A B : Type} (m : M A) (f : A -> M B) :
  shrinks m -> (forall a, shrinks (f a)) -> shrinks (bind m f).
Proof.
  intros Hm Hf s. unfold bind. specialize (Hm s).
  destruct (m s) as [[a|e] s1]; cbn [snd] in *.
  - specialize (Hf a s1). lia.
  - exact Hm.
Qed.

(** A frame that was read took at least one byte off the stream. *)
Lemma receive_frame_consumes (s s' : state) (f : frame) :
  receive_frame s = (Ok f, s') -> (pending_bytes s' < pending_bytes s)%nat.
Proof.
  unfold receive_frame. intros H.
  apply bind_ok in H. destruct H as (header & s1 & Hrecv & H).
  apply recv_pending in Hrecv.
  destruct header as [|h0 header]; [discriminate|]. cbn [length] in Hrecv.
  assert (S : shrinks
                (h1 <- lift (index (h0 :: header) 0) ;;
                 h2 <- lift (index (h0 :: header) 1) ;;
                 n <- (if Z.land h2 127 =? 126 then
                         b <- recv 2 ;; lift (struct_unpack_H b)
                       else if Z.land h2 127 =? 127 then
                         b <- recv 8 ;; lift (struct_unpack_Q b)
                       else ret (Z.land h2 127)) ;;
                 key <- (if negb (Z.land h2 128 =? 0)
                         then k <- recv 4 ;; ret (Some k) else ret None) ;;
                 data <- recv n ;;
                 data' <- (if negb (Z.land h2 128 =? 0)
                           then lift (unmask_payload data key) else ret data) ;;
                 ret (mkFrame (negb (Z.land h1 128 =? 0)) (Z.land h1 15)
                              (negb (Z.land h2 128 =? 0)) n data'))).
  { apply shrinks_bind; [apply shrinks_lift|]. intros h1.
    apply shrinks_bind; [apply shrinks_lift|]. intros h2.
    apply shrinks_bind.
    { destruct (Z.land h2 127 =? 126).
      - apply shrinks_bind; [apply shrinks_recv | intros; apply shrinks_lift].
      - destruct (Z.land h2 127 =? 127).
        + apply shrinks_bind; [apply shrinks_recv | intros; apply shrinks_lift].
        + apply shrinks_ret. }
    intros n. apply shrinks_bind.
    { destruct (negb (Z.land h2 128 =? 0)).
      - apply shrinks_bind; [apply shrinks_recv | intros; apply shrinks_ret].
      - apply shrinks_ret. }
    intros key. apply shrinks_bind; [apply shrinks_recv|]. intros data.
    apply shrinks_bind.
    { destruct (negb (Z.land h2 128 =? 0)); [apply shrinks_lift | apply shrinks_ret]. }
    intros data'. apply shrinks_ret. }
  specialize (S s1). rewrite H in S. cbn [snd] in S. lia.
Qed.

Lemma quiet_ret {A : Type} (a : A) : quiet (ret a).
Proof. intros s. reflexivity. Qed.

Lemma quiet_raise {A : Type} (e : exn) : quiet (@raise A e).
Proof. intros s. reflexivity. Qed.

Lemma quiet_lift {A : Type} (r : result A) : quiet (lift r).
Proof. intros s. reflexivity. Qed.

Lemma quiet_get {A : Type} (proj : state -> A) : quiet (get proj).
Proof. intros s. reflexivity. Qed.

Lemma quiet_modify (f : state -> state) :
  (forall s, sock_in (f s) = sock_in s) -> quiet (modify f).
Proof. intros H s. apply H. Qed.

Lemma quiet_bind {A B : Type} (m : M A) (f : A -> M B) :
  quiet m -> (forall a, quiet (f a)) -> quiet (bind m f).
Proof.
  intros Hm Hf s. unfold bind. specialize (Hm s).
  destruct (m s) as [[a|e] s1]; cbn [snd] in *.
  - rewrite (Hf a s1). exact Hm.
  - exact Hm.
Qed.

Lemma quiet_send_frame (data : bytes) (op : Z) : quiet (send_frame data op).
Proof.
  intros s. rewrite send_frame_eq.
  destruct ((0 <=? op) && (op <? 256) && (len data <? 2 ^ 64)); reflexivity.
Qed.

Lemma quiet_send_close_frame (code : Z) (reason : str) :
  quiet (send_close_frame code reason).
Proof.
  unfold send_close_frame.
  apply quiet_bind; [apply quiet_lift|]. intros h.
  apply quiet_bind; [apply quiet_lift|]. intros t. apply quiet_send_frame.
Qed.

Lemma quiet_handle_complete_message (op : Z) (message : bytes) :
  quiet (handle_complete_message op message).
Proof.
  unfold handle_complete_message.
  apply quiet_bind; [apply quiet_modify; reflexivity|]. intros _.
  destruct (op =? 1).
  - apply quiet_bind; [apply quiet_lift|]. intros text.
    unfold send_text_frame. apply quiet_bind; [apply quiet_lift|].
    intros data. apply quiet_send_frame.
  - destruct (op =? 2); [apply quiet_send_frame | apply quiet_ret].
Qed.

Lemma quiet_on_exception : quiet on_exception.
Proof.
  unfold on_exception. apply quiet_bind; [apply quiet_send_close_frame|].
  intros _. apply quiet_ret.
Qed.

Lemma quiet_dispatch (f : frame) : quiet (dispatch f).
Proof.
  unfold dispatch.
  destruct (opcode f =? 0).
  { apply quiet_bind; [apply quiet_get|]. intros started.
    apply quiet_bind.
    { unfold handle_continuation_frame. destruct started as [op|]; [|apply quiet_raise].
      apply quiet_bind; [apply quiet_modify; reflexivity|]. intros _.
      destruct (fin f); [|apply quiet_ret].
      apply quiet_bind; [apply quiet_get|]. intros message.
      apply quiet_handle_complete_message. }
    intros _. apply quiet_bind; [|intros; apply quiet_ret].
    destruct (fin f); [|apply quiet_ret].
    apply quiet_bind; [apply quiet_modify; reflexivity|]. intros _.
    apply quiet_modify. reflexivity. }
  destruct ((opcode f =? 1) || (opcode f =? 2)).
  { apply quiet_bind; [apply quiet_get|]. intros started.
    apply quiet_bind.
    { unfold handle_data_frame. destruct started; [apply quiet_raise|].
      destruct (fin f); [apply quiet_handle_complete_message | apply quiet_ret]. }
    intros _. apply quiet_bind; [|intros; apply quiet_ret].
    destruct (negb (fin f)); [|apply quiet_ret].
    apply quiet_bind; [apply quiet_modify; reflexivity|]. intros _.
    apply quiet_modify. reflexivity. }
  destruct (opcode f =? 8).
  { apply quiet_bind; [|intros; apply quiet_ret].
    unfold handle_close_frame. destruct (len (payload f) >=? 2).
    - apply quiet_bind; [apply quiet_lift|]. intros code.
      apply quiet_bind; [apply quiet_lift|]. intros reason.
      apply quiet_send_close_frame.
    - apply quiet_send_close_frame. }
  destruct (opcode f =? 9).
  { apply quiet_bind; [|intros; apply quiet_ret].
    unfold handle_ping_frame, send_pong_frame. apply quiet_send_frame. }
  destruct (opcode f =? 10).
  { apply quiet_bind; [|intros; apply quiet_ret]. apply quiet_ret. }
  apply quiet_raise.
Qed.

Lemma quiet_on_frame (f : frame) : quiet (on_frame f).
Proof.
  intros s. unfold on_frame. pose proof (quiet_dispatch f s) as D.
  destruct (dispatch f s) as [[stop|e] s1]; cbn [snd] in *.
  - exact D.
  - rewrite quiet_on_exception. exact D.
Qed.

(** A pass never lets an exception out. *)
Lemma iteration_never_raises (s : state) :
  exists stop s', iteration s = (Ok stop, s').
Proof.
  unfold iteration. destruct (receive_frame s) as [[f|e] s1].
  - unfold on_frame. destruct (dispatch f s1) as [[stop|e] s2].
    + exists stop, s2. reflexivity.
    + rewrite on_exception_eq. eexists _, _. reflexivity.
  - rewrite on_exception_eq. eexists _, _. reflexivity.
Qed.

(** A pass that goes on has taken at least one byte off the stream. *)
Lemma iteration_consumes (s s' : state) :
  iteration s = (Ok false, s') -> (pending_bytes s' < pending_bytes s)%nat.
Proof.
  unfold iteration. destruct (receive_frame s) as [[f|e] s1] eqn:Hrecv.
  - intros H. apply receive_frame_consumes in Hrecv.
    pose proof (quiet_on_frame f s1) as Q. rewrite H in Q. cbn [snd] in Q.
    unfold pending_bytes in *. rewrite Q. exact Hrecv.
  - rewrite on_exception_eq. discriminate.
Qed.

Lemma frame_loop_terminates (fuel : nat) :
  forall s, (pending_bytes s < fuel)%nat ->
            exists s', frame_loop fuel s = Some (Ok tt, s').
Proof.
  induction fuel as [|fuel IH]; intros s Hfuel; [lia|].
  cbn [frame_loop].
  destruct (iteration_never_raises s) as (stop & s1 & Hit). rewrite Hit.
  destruct stop.
  - exists s1. reflexivity.
  - apply IH. apply iteration_consumes in Hit. lia.
Qed.

(** ** How the loop ends *)

Lemma send_frame_close_ok (data : bytes) (s s' : state) :
  send_frame data 8 s = (Ok tt, s') ->
  exists tail, sock_out s' = sock_out s ++ [x88 :: tail].
Proof.
  rewrite send_frame_eq.
  destruct ((0 <=? 8) && (8 <? 256) && (len data <? 2 ^ 64)); [|discriminate].
  intros H. injection H as <-. unfold wire_header.
  change (byte_of (Z.lor 128 8)) with x88. cbn [sock_out set_sock_out app].
  eexists. reflexivity.
Qed.

Lemma send_close_frame_ok (code : Z) (reason : str) (s s' : state) :
  send_close_frame code reason s = (Ok tt, s') ->
  exists tail, sock_out s' = sock_out s ++ [x88 :: tail].
Proof.
  unfold send_close_frame. intros H.
  apply bind_ok in H. destruct H as (h & s1 & Hh & H).
  apply bind_ok in H. destruct H as (t & s2 & Ht & H).
  unfold lift in Hh, Ht. injection Hh as _ <-. injection Ht as _ <-.
  apply send_frame_close_ok in H. exact H.
Qed.

Lemma dispatch_break (f : frame) (s s' : state) :
  dispatch f s = (Ok true, s') ->
  exists tail, sock_out s' = sock_out s ++ [x88 :: tail].
Proof.
  unfold dispatch. intros H.
  destruct (opcode f =? 0).
  { apply bind_ok in H. destruct H as (? & ? & _ & H).
    apply bind_ok in H. destruct H as (? & ? & _ & H).
    apply bind_ok in H. destruct H as (? & ? & _ & H). discriminate. }
  destruct ((opcode f =? 1) || (opcode f =? 2)).
  { apply bind_ok in H. destruct H as (? & ? & _ & H).
    apply bind_ok in H. destruct H as (? & ? & _ & H).
    apply bind_ok in H. destruct H as (? & ? & _ & H). discriminate. }
  destruct (opcode f =? 8).
  { apply bind_ok in H. destruct H as ([] & s1 & Hclose & H).
    unfold ret in H. injection H as <-.
    unfold handle_close_frame in Hclose.
    destruct (len (payload f) >=? 2).
    - apply bind_ok in Hclose. destruct Hclose as (code & s2 & Hc & Hclose).
      apply bind_ok in Hclose. destruct Hclose as (reason & s3 & Hr & Hclose).
      unfold lift in Hc, Hr. injection Hc as _ <-. injection Hr as _ <-.
      apply send_close_frame_ok in Hclose. exact Hclose.
    - apply send_close_frame_ok in Hclose. exact Hclose. }
  destruct (opcode f =? 9).
  { apply bind_ok in H. destruct H as (? & ? & _ & H). discriminate. }
  destruct (opcode f =? 10).
  { apply bind_ok in H. destruct H as (? & ? & _ & H). discriminate. }
  discriminate.
Qed.

Lemma close_1002_first_byte :
  exists tail, close_frame 1002 protocol_error = x88 :: tail.
Proof. eexists. vm_compute. reflexivity. Qed.

(** The pass that leaves the loop has a Close frame as its last write. *)
Lemma iteration_break (s s' : state) :
  iteration s = (Ok true, s') ->
  exists before tail, sock_out s' = before ++ [x88 :: tail].
Proof.
  destruct close_1002_first_byte as [tail1002 H1002].
  unfold iteration. destruct (receive_frame s) as [[f|e] s1].
  - unfold on_frame. destruct (dispatch f s1) as [[stop|e] s2] eqn:D.
    + intros H. injection H as -> <-. apply dispatch_break in D.
      destruct D as [tail D]. exists (sock_out s1), tail. exact D.
    + rewrite on_exception_eq, H1002. intros H. injection H as <-.
      exists (sock_out s2), tail1002. reflexivity.
  - rewrite on_exception_eq, H1002. intros H. injection H as <-.
    exists (sock_out s1), tail1002. reflexivity.
Qed.

(** X9: the frame loop ends, on a transport that accepts every write and
    whose input ends.  [send] stands for a [sendall] that succeeds, and [recv]
    returns the empty bytes once the client's last byte is read; a write that
    fails ([BrokenPipeError] in the [except] clause) is outside this model.
    On that proviso, with more fuel than the client sends bytes, [frame_loop]
    returns normally and the last thing it has written is a Close frame. *)
Theorem frame_loop_ends_with_close (fuel : nat) (s : state) :
  (pending_bytes s < fuel)%nat ->
  exists s' before tail,
    frame_loop fuel s = Some (Ok tt, s')
    /\ sock_out s' = before ++ [x88 :: tail].
Proof.
  revert s. induction fuel as [|fuel IH]; intros s Hfuel; [lia|].
  cbn [frame_loop].
  destruct (iteration_never_raises s) as (stop & s1 & Hit). rewrite Hit.
  destruct stop.
  - destruct (iteration_break s s1 Hit) as (before & tail & Hout).
    exists s1, before, tail. split; [reflexivity | exact Hout].
  - apply IH. apply iteration_consumes in Hit. lia.
Qed.

Lemma frame_loop_ends_with_close_witness :
  exists s' before tail,
    frame_loop 5 (connect [] [] [[x81; x02; x68; x69]]) = Some (Ok tt, s')
    /\ sock_out s' = before ++ [x88 :: tail].
Proof.
  apply (frame_loop_ends_with_close 5 (connect [] [] [[x81; x02; x68; x69]])).
  vm_compute. lia.
Defined.

(** ** [handle_client] *)

Lemma quiet_send (data : bytes) : quiet (send data).
Proof. intros s. reflexivity. Qed.

Lemma shrinks_quiet {A : Type} (m : M A) : quiet m -> shrinks m.
Proof. intros Q s. unfold pending_bytes. rewrite (Q s). lia. Qed.

Lemma shrinks_handshake : shrinks handshake.
Proof.
  unfold handshake. apply shrinks_bind; [apply shrinks_recv|]. intros raw.
  apply shrinks_quiet.
  apply quiet_bind; [apply quiet_lift|]. intros data.
  destruct (contains (lit "Upgrade: websocket") data
            && contains (lit "Connection: Upgrade") data); [|apply quiet_raise].
  apply quiet_bind.
  { destruct (re_search (lit "Sec-WebSocket-Key: ") data);
      [apply quiet_ret | apply quiet_raise]. }
  intros key. apply quiet_bind; [apply quiet_lift|]. intros response_key.
  apply quiet_bind.
  { destruct (re_search (lit "Sec-WebSocket-Extensions: ") data); [|apply quiet_ret].
    apply quiet_bind; [apply quiet_modify; reflexivity|]. intros _.
    apply quiet_bind; [apply quiet_get|]. intros. apply quiet_ret. }
  intros response. apply quiet_bind.
  { destruct (re_search (lit "Sec-WebSocket-Protocol: ") data); [|apply quiet_ret].
    apply quiet_bind; [apply quiet_modify; reflexivity|]. intros _.
    apply quiet_bind; [apply quiet_get|]. intros protos.
    destruct protos; [apply quiet_raise | apply quiet_ret]. }
  intros response'. apply quiet_bind; [apply quiet_lift|]. intros encoded.
  apply quiet_send.
Qed.

(** X10: [handle_client] returns on every input, and when it returns the
    socket is closed, whether the handshake failed, the client went away or
    the frame loop ended. *)
Theorem handle_client_closes_socket (fuel : nat) (s : state) :
  (pending_bytes s < fuel)%nat ->
  exists s', handle_client fuel s = Some s' /\ sock_closed s' = true.
Proof.
  intros Hfuel. unfold handle_client, handle_websocket_frames.
  pose proof (shrinks_handshake s) as Hs.
  destruct (handshake s) as [[[]|e] s1]; cbn [snd] in Hs.
  - destruct (frame_loop_terminates fuel
                (set_fragmented_opcode None (set_fragmented_message [] s1)))
      as [s2 H2].
    + unfold pending_bytes in *. cbn [sock_in set_fragmented_opcode
                                      set_fragmented_message]. lia.
    + rewrite H2. exists (close s2). split; reflexivity.
  - exists (close s1). split; reflexivity.
Qed.

Lemma handle_client_closes_socket_witness :
  exists s',
    handle_client 3 (connect [] [] [[x47; x45]]) = Some s'
    /\ sock_closed s' = true.
Proof.
  apply (handle_client_closes_socket 3 (connect [] [] [[x47; x45]])).
  vm_compute. lia.
Defined.

(** ** A handshake that fails *)

Lemma silent_recv (n : Z) : silent (recv n).
Proof.
  intros s. unfold recv. destruct (n >? ssize_max); [reflexivity|].
  destruct (n <? 0); [reflexivity|].
  destruct (recv_from (Z.to_nat n) (sock_in s)). reflexivity.
Qed.

Lemma silent_ret {A : Type} (a : A) : silent (ret a).
Proof. intros s. reflexivity. Qed.

Lemma silent_raise {A : Type} (e : exn) : silent (@raise A e).
Proof. intros s. reflexivity. Qed.

Lemma silent_lift {A : Type} (r : result A) : silent (lift r).
Proof. intros s. reflexivity. Qed.

Lemma silent_get {A : Type} (proj : state -> A) : silent (get proj).
Proof. intros s. reflexivity. Qed.

Lemma silent_bind {A B : Type} (m : M A) (f : A -> M B) :
  silent m -> (forall a, silent (f a)) -> silent (bind m f).
Proof.
  intros Hm Hf s. unfold bind. specialize (Hm s).
  destruct (m s) as [[a|e] s1]; cbn [snd] in *.
  - rewrite (Hf a s1). exact Hm.
  - exact Hm.
Qed.

Lemma bind_raise {A B : Type} (m : M A) (f : A -> M B) (s s' : state) (e : exn) :
  bind m f s = (Raise e, s') ->
  m s = (Raise e, s') \/ exists a s1, m s = (Ok a, s1) /\ f a s1 = (Raise e, s').
Proof.
  unfold bind. destruct (m s) as [[a|e'] s1]; intros H.
  - right. exists a, s1. split; [reflexivity | exact H].
  - left. injection H as -> ->. reflexivity.
Qed.

(** X11: a handshake that fails, for whatever reason, has sent nothing, and
    [handle_client] then closes the socket without entering the frame
    loop. *)
Theorem failed_handshake_sends_nothing (s s' : state) (e : exn) (fuel : nat) :
  handshake s = (Raise e, s') ->
  sock_out s' = sock_out s
  /\ handle_client fuel s = Some (close s')
  /\ sock_out (close s') = sock_out s
  /\ sock_closed (close s') = true.
Proof.
  intros H.
  assert (Hout : sock_out s' = sock_out s).
  { revert H. unfold handshake. intros H.
    apply bind_raise in H. destruct H as [H | (raw & s1 & Hrecv & H)].
    { pose proof (silent_recv 1024 s) as S. rewrite H in S. exact S. }
    pose proof (silent_recv 1024 s) as S1. rewrite Hrecv in S1. cbn [snd] in S1.
    rewrite <- S1.
    apply bind_raise in H. destruct H as [H | (data & s2 & Hdec & H)].
    { unfold lift in H. injection H as _ <-. reflexivity. }
    unfold lift in Hdec. injection Hdec as _ <-.
    destruct (contains (lit "Upgrade: websocket") data
              && contains (lit "Connection: Upgrade") data).
    2:{ unfold raise in H. injection H as _ <-. reflexivity. }
    apply bind_raise in H. destruct H as [H | (key & s3 & Hkey & H)].
    { destruct (re_search (lit "Sec-WebSocket-Key: ") data);
        [discriminate | injection H as _ <-; reflexivity]. }
    assert (E3 : s3 = s1).
    { destruct (re_search (lit "Sec-WebSocket-Key: ") data);
        [injection Hkey as _ <-; reflexivity | discriminate]. }
    subst s3.
    apply bind_raise in H. destruct H as [H | (rk & s4 & Hrk & H)].
    { unfold lift in H. injection H as _ <-. reflexivity. }
    unfold lift in Hrk. injection Hrk as _ <-.
    apply bind_raise in H. destruct H as [H | (r1 & s5 & Hr1 & H)].
    { assert (S : silent
                (match re_search (lit "Sec-WebSocket-Extensions: ") data with
                 | Some group1 =>
                     modify (set_extensions (map strip (split_comma group1))) ;;
                     self_extensions <- get extensions ;;
                     ret ((lit "HTTP/1.1 101 Switching Protocols" ++ crlf
                           ++ lit "Upgrade: websocket" ++ crlf
                           ++ lit "Connection: Upgrade" ++ crlf
                           ++ lit "Sec-WebSocket-Accept: " ++ rk ++ crlf)
                          ++ lit "Sec-WebSocket-Extensions: "
                          ++ join (lit ", ") self_extensions ++ crlf)
                 | None => ret (lit "HTTP/1.1 101 Switching Protocols" ++ crlf
                                ++ lit "Upgrade: websocket" ++ crlf
                                ++ lit "Connection: Upgrade" ++ crlf
                                ++ lit "Sec-WebSocket-Accept: " ++ rk ++ crlf)
                 end)).
      { destruct (re_search (lit "Sec-WebSocket-Extensions: ") data);
          [|apply silent_ret].
        apply silent_bind; [intros ?; reflexivity|]. intros _.
        apply silent_bind; [apply silent_get | intros; apply silent_ret]. }
      specialize (S s1). rewrite H in S. exact S. }
    assert (S5 : sock_out s5 = sock_out s1).
    { destruct (re_search (lit "Sec-WebSocket-Extensions: ") data).
      - unfold bind, modify, get, ret in Hr1. injection Hr1 as _ <-. reflexivity.
      - unfold ret in Hr1. injection Hr1 as _ <-. reflexivity. }
    rewrite <- S5.
    apply bind_raise in H. destruct H as [H | (r2 & s6 & Hr2 & H)].
    { destruct (re_search (lit "Sec-WebSocket-Protocol: ") data).
      - unfold bind, modify, get in H.
        destruct (subprotocols (set_subprotocols (map strip (split_comma s0)) s5));
          [unfold raise in H | unfold ret in H]; injection H as _ <-; reflexivity.
      - discriminate. }
    assert (S6 : sock_out s6 = sock_out s5).
    { destruct (re_search (lit "Sec-WebSocket-Protocol: ") data).
      - unfold bind, modify, get in Hr2.
        destruct (subprotocols (set_subprotocols (map strip (split_comma s0)) s5));
          [discriminate | unfold ret in Hr2; injection Hr2 as _ <-; reflexivity].
      - unfold ret in Hr2. injection Hr2 as _ <-. reflexivity. }
    rewrite <- S6.
    apply bind_raise in H. destruct H as [H | (enc & s7 & Henc & H)].
    { unfold lift in H. injection H as _ <-. reflexivity. }
    discriminate. }
  split; [exact Hout|]. split.
  - unfold handle_client. rewrite H. reflexivity.
  - split; [exact Hout | reflexivity].
Qed.

Lemma failed_handshake_sends_nothing_witness :
  sock_out (connect [] [] [[]]) = sock_out (connect [] [] [[xff; xfe]])
  /\ handle_client 1 (connect [] [] [[xff; xfe]])
     = Some (close (connect [] [] [[]]))
  /\ sock_out (close (connect [] [] [[]])) = sock_out (connect [] [] [[xff; xfe]])
  /\ sock_closed (close (connect [] [] [[]])) = true.
Proof.
  assert (H : handshake (connect [] [] [[xff; xfe]])
              = (Raise UnicodeDecodeError, connect [] [] [[]]))
    by (vm_compute; reflexivity).
  exact (failed_handshake_sends_nothing _ _ _ 1 H).
Defined.

(** X12: the two upgrade headers are looked for as exact text.  A request
    that lacks [Upgrade: websocket] or [Connection: Upgrade] in that very
    spelling is refused with the exception of an invalid upgrade request. *)
Theorem request_without_upgrade_text_refused
    (s s1 : state) (raw : bytes) (data : str) :
  recv 1024 s = (Ok raw, s1) ->
  decode_utf8 raw = Ok data ->
  contains (lit "Upgrade: websocket") data = false
  \/ contains (lit "Connection: Upgrade") data = false ->
  handshake s = (Raise (Exception "Invalid WebSocket upgrade request"), s1).
Proof.
  intros Hrecv Hdec Hno. unfold handshake, bind at 1. rewrite Hrecv.
  unfold bind at 1. unfold lift at 1. rewrite Hdec.
  destruct Hno as [-> | ->]; [|rewrite andb_false_r]; reflexivity.
Qed.

Lemma request_without_upgrade_text_refused_witness :
  handshake
    (connect [] []
       [map byte_of
            (lit "GET / HTTP/1.1" ++ crlf ++ lit "Upgrade: websocket" ++ crlf
             ++ lit "Connection: upgrade" ++ crlf
             ++ lit "Sec-WebSocket-Key: dGhlIHNhbXBsZSBub25jZQ==" ++ crlf
             ++ crlf)])
  = (Raise (Exception "Invalid WebSocket upgrade request"), connect [] [] [[]]).
Proof.
  eapply request_without_upgrade_text_refused.
  - vm_compute. reflexivity.
  - vm_compute. reflexivity.
  - right. vm_compute. reflexivity.
Defined.

(** ** A handshake that succeeds *)

Lemma encode_utf8_ok (s : str) :
  Forall encodable s -> exists b, encode_utf8 s = Ok b.
Proof.
  induction 1 as [|c s [bc Hc] _ [bs Hs]]; cbn [encode_utf8].
  - exists []. reflexivity.
  - rewrite Hc, Hs. cbn [rbind]. eexists. reflexivity.
Qed.

Lemma encode_utf8_encodable (s : str) (b : bytes) :
  encode_utf8 s = Ok b -> Forall encodable s.
Proof.
  revert b. induction s as [|c s IH]; intros b H; [constructor|].
  cbn [encode_utf8] in H.
  destruct (encode_char c) as [bc|e] eqn:Hc; cbn [rbind] in H; [|discriminate].
  destruct (encode_utf8 s) as [bs|e] eqn:Hs; cbn [rbind] in H; [|discriminate].
  constructor; [exists bc; exact Hc | apply (IH bs); reflexivity].
Qed.


Lemma encode_ascii (s : str) :
  Forall (fun c => 0 <= c < 128) s -> encode_utf8 s = Ok (map byte_of s).
Proof.
  induction 1 as [|c s Hc _ IH]; [reflexivity|].
  cbn [encode_utf8 map]. rewrite encode_char_1, IH by exact Hc. reflexivity.
Qed.

Lemma lit_ascii (s : string) : Forall (fun c => 0 <= c < 128) (lit s) -> Forall encodable (lit s).
Proof.
  intros H. apply (encode_utf8_encodable _ (map byte_of (lit s))).
  apply encode_ascii. exact H.
Qed.











(** [generate_accept_key] returns for every key that can be encoded, and
    its value is ASCII. *)
Lemma generate_accept_key_ok (key : str) :
  Forall encodable key ->
  exists accept, generate_accept_key key = Ok accept
                 /\ Forall (fun c => 0 <= c < 128) accept.
Proof.
  intros Hkey.
  destruct (encode_utf8_ok (key ++ GUID)) as [encoded He].
  { apply Forall_app. split; [exact Hkey|].
    apply lit_ascii. unfold GUID.
    apply Forall_forall. intros c Hc.
    assert (F : forallb (fun c => (0 <=? c) && (c <? 128))
                        (lit "258EAFA5-E914-47DA-95CA-C5AB0DC85B11") = true)
      by (vm_compute; reflexivity).
    rewrite forallb_forall in F. specialize (F c Hc).
    apply andb_prop in F. destruct F as [F1 F2].
    apply Z.leb_le in F1. apply Z.ltb_lt in F2. lia. }
  unfold generate_accept_key. rewrite He. cbn [rbind].
  pose proof (b64encode_ascii (SHA1.digest encoded)) as A.
  rewrite (decode_ascii _ A). eexists. split; [reflexivity|].
  apply Forall_forall. intros c Hc. apply in_map_iff in Hc.
  destruct Hc as (x & <- & Hx). unfold ascii_bytes in A.
  rewrite Forall_forall in A. specialize (A x Hx).
  pose proof (byte_val_range x). lia.
Qed.

Lemma Forall_ascii_lit (s : string) :
  forallb (fun c => (0 <=? c) && (c <? 128)) (lit s) = true ->
  Forall encodable (lit s).
Proof.
  intros F. apply lit_ascii. apply Forall_forall. intros c Hc.
  rewrite forallb_forall in F. specialize (F c Hc).
  apply andb_prop in F. destruct F as [F1 F2].
  apply Z.leb_le in F1. apply Z.ltb_lt in F2. lia.
Qed.






(** ** The reassembly state *)

Lemma keeps_pending_ret {A : Type} (a : A) : keeps_pending (ret a).
Proof. intros s. split; reflexivity. Qed.

Lemma keeps_pending_lift {A : Type} (r : result A) : keeps_pending (lift r).
Proof. intros s. split; reflexivity. Qed.

Lemma keeps_pending_bind {A B : Type} (m : M A) (f : A -> M B) :
  keeps_pending m -> (forall a, keeps_pending (f a)) -> keeps_pending (bind m f).
Proof.
  intros Hm Hf s. unfold bind. specialize (Hm s).
  destruct (m s) as [[a|e] s1]; cbn [snd] in *.
  - destruct (Hf a s1) as [F1 F2]. destruct Hm as [M1 M2].
    split; congruence.
  - exact Hm.
Qed.

Lemma keeps_pending_send_frame (data : bytes) (op : Z) :
  keeps_pending (send_frame data op).
Proof.
  intros s. rewrite send_frame_eq.
  destruct ((0 <=? op) && (op <? 256) && (len data <? 2 ^ 64)); split; reflexivity.
Qed.

Lemma keeps_pending_handle_complete_message (op : Z) (message : bytes) :
  keeps_pending (handle_complete_message op message).
Proof.
  unfold handle_complete_message.
  apply keeps_pending_bind; [intros s; split; reflexivity|]. intros _.
  destruct (op =? 1).
  - apply keeps_pending_bind; [apply keeps_pending_lift|]. intros text.
    unfold send_text_frame. apply keeps_pending_bind; [apply keeps_pending_lift|].
    intros data. apply keeps_pending_send_frame.
  - destruct (op =? 2); [apply keeps_pending_send_frame | apply keeps_pending_ret].
Qed.

(** A pass after which the loop goes on keeps the shape of the reassembly
    state. *)
Lemma dispatch_pending_ok (f : frame) (s s' : state) :
  pending_ok s -> dispatch f s = (Ok false, s') -> pending_ok s'.
Proof.
  intros Hok. unfold dispatch.
  destruct (Z.eqb_spec (opcode f) 0) as [E0|E0].
  { intros H. apply bind_ok in H. destruct H as (started & s1 & Hget & H).
    unfold get in Hget. injection Hget as <- <-.
    apply bind_ok in H. destruct H as ([] & s2 & Hcont & H).
    apply bind_ok in H. destruct H as ([] & s3 & Hreset & H).
    unfold ret in H. injection H as <-.
    unfold handle_continuation_frame in Hcont.
    destruct (fragmented_opcode s) as [op|] eqn:Eop; [|discriminate].
    destruct (fin f).
    - apply bind_ok in Hreset. destruct Hreset as ([] & s4 & Hm & Hreset).
      unfold modify in Hm, Hreset. injection Hm as <-. injection Hreset as <-.
      left. split; reflexivity.
    - unfold ret in Hreset. injection Hreset as <-.
      apply bind_ok in Hcont. destruct Hcont as ([] & s4 & Hm & Hcont).
      unfold modify in Hm. injection Hm as <-. unfold ret in Hcont.
      injection Hcont as <-.
      destruct Hok as [[Hn _] | [H1 | H2]]; [congruence | |].
      + right. left. cbn. rewrite Eop in *. exact H1.
      + right. right. cbn. rewrite Eop in *. exact H2. }
  destruct ((opcode f =? 1) || (opcode f =? 2)) eqn:E12.
  { intros H. apply bind_ok in H. destruct H as (started & s1 & Hget & H).
    unfold get in Hget. injection Hget as <- <-.
    apply bind_ok in H. destruct H as ([] & s2 & Hdata & H).
    apply bind_ok in H. destruct H as ([] & s3 & Hstart & H).
    unfold ret in H. injection H as <-.
    unfold handle_data_frame in Hdata.
    destruct (fragmented_opcode s) as [op|] eqn:Eop; [discriminate|].
    destruct (fin f); cbn [negb] in Hstart.
    - unfold ret in Hstart. injection Hstart as <-.
      pose proof (keeps_pending_handle_complete_message (opcode f) (payload f) s)
        as [K1 K2].
      rewrite Hdata in K1, K2. cbn [snd] in K1, K2.
      destruct Hok as [[_ Hm] | [H1 | H2]]; [|congruence|congruence].
      left. split; congruence.
    - apply bind_ok in Hstart. destruct Hstart as ([] & s4 & Hm & Hstart).
      unfold modify in Hm, Hstart. injection Hm as <-. injection Hstart as <-.
      apply orb_prop in E12. destruct E12 as [E|E]; apply Z.eqb_eq in E.
      + right. left. cbn. rewrite E. reflexivity.
      + right. right. cbn. rewrite E. reflexivity. }
  destruct (opcode f =? 8).
  { intros H. apply bind_ok in H. destruct H as (? & ? & _ & H). discriminate. }
  destruct (opcode f =? 9).
  { intros H. apply bind_ok in H. destruct H as ([] & s1 & Hping & H).
    unfold ret in H. injection H as <-.
    pose proof (keeps_pending_send_frame (payload f) 10 s) as [K1 K2].
    unfold handle_ping_frame, send_pong_frame in Hping.
    rewrite Hping in K1, K2. cbn [snd] in K1, K2.
    unfold pending_ok in *. rewrite K1, K2. exact Hok. }
  destruct (opcode f =? 10).
  { intros H. apply bind_ok in H. destruct H as ([] & s1 & Hpong & H).
    unfold ret in H. injection H as <-. unfold handle_pong_frame, ret in Hpong.
    injection Hpong as <-. exact Hok. }
  discriminate.
Qed.

Lemma iteration_pending_ok (s s' : state) :
  pending_ok s -> iteration s = (Ok false, s') -> pending_ok s'.
Proof.
  intros Hok. unfold iteration.
  destruct (receive_frame s) as [[f|e] s1] eqn:Hrecv.
  - assert (Hok1 : pending_ok s1).
    { rewrite (receive_frame_state s s1 _ Hrecv). exact Hok. }
    unfold on_frame. destruct (dispatch f s1) as [[stop|e] s2] eqn:D.
    + intros H. injection H as -> <-. apply (dispatch_pending_ok f s1 s2 Hok1 D).
    + rewrite on_exception_eq. discriminate.
  - rewrite on_exception_eq. discriminate.
Qed.

(** X14: at most one message is open at a time, and it is a Text or a Binary
    message.  After any number of passes of the loop [handle_websocket_frames]
    starts, either no message is open and the buffer is empty, or the opcode
    kept for the open message is 1 or 2. *)
Theorem reassembly_state_well_formed (n : nat) (s s' : state) :
  passes n (set_fragmented_opcode None (set_fragmented_message [] s)) = Some s' ->
  pending_ok s'.
Proof.
  assert (G : forall n t t', pending_ok t -> passes n t = Some t' -> pending_ok t').
  { clear. induction n as [|n IH]; intros t t' Hok H; cbn [passes] in H.
    - injection H as <-. exact Hok.
    - destruct (iteration t) as [[[|]|e] t1] eqn:Hit; try discriminate.
      apply (IH t1 t'); [|exact H].
      apply (iteration_pending_ok t t1 Hok Hit). }
  apply G. left. split; reflexivity.
Qed.

Lemma reassembly_state_well_formed_witness :
  pending_ok
    (mkState [] [] [[]] [[x8a; x00]] false [x61; x62] (Some 2) []).
Proof.
  apply (reassembly_state_well_formed 3
           (connect [] [] [[x02; x01; x61; x89; x00; x00; x01; x62]])).
  vm_compute. reflexivity.
Defined.

(** ** More on single frames *)

(** X15: what [send_frame] writes.  For an opcode that fits a byte it writes
    one chunk, a header of 2, 4 or 10 bytes (up to 125, up to 65535, beyond)
    followed by the payload unchanged; for any other opcode it raises
    [struct.error] and writes nothing. *)
Theorem send_frame_header_size (payload : bytes) (opcode : Z) (s : state) :
  len payload < 2 ^ 64 ->
  match send_frame payload opcode s with
  | (Ok _, s') =>
      0 <= opcode < 256
      /\ exists header,
           sock_out s' = sock_out s ++ [header ++ payload]
           /\ len header = (if len payload <=? 125 then 2
                            else if len payload <=? 65535 then 4 else 10)
  | (Raise e, s') =>
      e = StructError /\ s' = s /\ (opcode < 0 \/ 256 <= opcode)
  end.
Proof.
  intros Hlen. rewrite send_frame_eq.
  destruct (Z.leb_spec 0 opcode) as [H0|H0];
    destruct (Z.ltb_spec opcode 256) as [H1|H1];
    destruct (Z.ltb_spec (len payload) (2 ^ 64)) as [H2|H2]; cbn [andb];
    try lia; try (repeat split; lia).
  split; [lia|]. exists (wire_header opcode (len payload)).
  split; [reflexivity|]. unfold wire_header.
  destruct (len payload <=? 125); [reflexivity|].
  destruct (len payload <=? 65535); reflexivity.
Qed.

Lemma send_frame_header_size_witness :
  match send_frame (repeat x61 200) 2 (connect [] [] []) with
  | (Ok _, s') =>
      0 <= 2 < 256
      /\ exists header,
           sock_out s' = sock_out (connect [] [] []) ++ [header ++ repeat x61 200]
           /\ len header = (if len (repeat x61 200) <=? 125 then 2
                            else if len (repeat x61 200) <=? 65535 then 4
                                 else 10)
  | (Raise e, s') =>
      e = StructError /\ s' = connect [] [] [] /\ (2 < 0 \/ 256 <= 2)
  end.
Proof.
  apply (send_frame_header_size (repeat x61 200) 2 (connect [] [] [])).
  vm_compute. reflexivity.
Defined.

(** X16: a Close frame with a payload of two bytes or more, the reason valid
    UTF-8, is answered with a Close frame that carries the same payload, byte
    for byte. *)
Theorem close_payload_echoed (s s1 : state) (f : frame) (reason : str) :
  receive_frame s = (Ok f, s1) ->
  opcode f = 8 ->
  2 <= len (payload f) ->
  decode_utf8 (skipn 2 (payload f)) = Ok reason ->
  iteration s
  = (Ok true,
     set_sock_out
       (sock_out s1 ++ [wire_header 8 (len (payload f)) ++ payload f]) s1).
Proof.
  intros Hrecv Hop H2 Hdec.
  pose proof (receive_frame_payload_bound s s1 f Hrecv) as [B1 B2].
  unfold ssize_max in B2.
  rewrite (iteration_received s s1 f Hrecv).
  rewrite (on_frame_close f s1 reason Hop).
  - rewrite (close_frame_parse (payload f) H2). reflexivity.
  - lia.
  - unfold parse_close. destruct (Z.geb_spec (len (payload f)) 2); [|lia].
    exact Hdec.
Qed.

Lemma close_payload_echoed_witness :
  iteration (connect [] [] [[x88; x05; x03; xe8; x62; x79; x65]])
  = (Ok true,
     set_sock_out
       (sock_out (connect [] [] [[]]) ++ [[x88; x05; x03; xe8; x62; x79; x65]])
       (connect [] [] [[]])).
Proof.
  assert (H : receive_frame (connect [] [] [[x88; x05; x03; xe8; x62; x79; x65]])
              = (Ok (mkFrame true 8 false 5 [x03; xe8; x62; x79; x65]),
                 connect [] [] [[]])) by (vm_compute; reflexivity).
  assert (H2 : 2 <= len [x03; xe8; x62; x79; x65]) by (vm_compute; discriminate).
  assert (Hd : decode_utf8 [x62; x79; x65] = Ok (lit "bye")) by reflexivity.
  exact (close_payload_echoed _ _ _ (lit "bye") H eq_refl H2 Hd).
Defined.

(** X17: a Close frame with an empty payload, or with a single byte, is
    answered with the status code 1000 and no reason; the single byte is
    dropped. *)
Theorem short_close_answered_1000 (s s1 : state) (f : frame) :
  receive_frame s = (Ok f, s1) ->
  opcode f = 8 ->
  len (payload f) < 2 ->
  iteration s
  = (Ok true, set_sock_out (sock_out s1 ++ [[x88; x02; x03; xe8]]) s1).
Proof.
  intros Hrecv Hop Hshort.
  rewrite (iteration_received s s1 f Hrecv).
  assert (Hp : parse_close (payload f) = (1000, [])).
  { unfold parse_close. destruct (Z.geb_spec (len (payload f)) 2); [lia|].
    reflexivity. }
  rewrite (on_frame_close f s1 [] Hop).
  - rewrite Hp. reflexivity.
  - lia.
  - rewrite Hp. reflexivity.
Qed.

Lemma short_close_answered_1000_witness :
  iteration (connect [] [] [[x88; x01; x2a]])
  = (Ok true,
     set_sock_out (sock_out (connect [] [] [[]]) ++ [[x88; x02; x03; xe8]])
                  (connect [] [] [[]])).
Proof.
  assert (H : receive_frame (connect [] [] [[x88; x01; x2a]])
              = (Ok (mkFrame true 8 false 1 [x2a]), connect [] [] [[]]))
    by (vm_compute; reflexivity).
  assert (H1 : len [x2a] < 2) by (vm_compute; reflexivity).
  exact (short_close_answered_1000 _ _ _ H eq_refl H1).
Defined.

(** X18: a Text message in one frame that is not valid UTF-8 is handed to
    the handler once, nothing is echoed, and the server answers with a Close
    frame of code 1002 and leaves the loop. *)
Theorem invalid_text_closes_1002 (s s1 : state) (f : frame) :
  fragmented_opcode s = None ->
  receive_frame s = (Ok f, s1) ->
  opcode f = 1 ->
  fin f = true ->
  (forall text, decode_utf8 (payload f) <> Ok text) ->
  iteration s
  = (Ok true,
     mkState (extensions s) (subprotocols s) (sock_in s1)
             (sock_out s ++ [close_frame 1002 protocol_error])
             (sock_closed s) (fragmented_message s) None
             (delivered s ++ [(1, payload f)])).
Proof.
  intros Hnone Hrecv Hop Hfin Hbad.
  pose proof (receive_frame_state s s1 _ Hrecv) as Hs1.
  rewrite (iteration_received s s1 f Hrecv). unfold on_frame, dispatch.
  rewrite Hop, Hfin. cbn [Z.eqb Pos.eqb orb negb].
  unfold bind at 1. unfold bind at 1. unfold bind at 1. unfold get.
  assert (Hn1 : fragmented_opcode s1 = None) by (rewrite Hs1; exact Hnone).
  rewrite Hn1. cbn [handle_data_frame]. rewrite Hfin, Hop.
  destruct (handle_complete_message_bad_text (payload f) s1 Hbad) as [e He].
  rewrite He, on_exception_eq. rewrite <- Hnone. rewrite Hs1. reflexivity.
Qed.

Lemma invalid_text_closes_1002_witness :
  iteration (connect [] [] [[x81; x01; xff]])
  = (Ok true,
     mkState [] [] [[]] [close_frame 1002 protocol_error] false [] None
             [(1, [xff])]).
Proof.
  assert (H : receive_frame (connect [] [] [[x81; x01; xff]])
              = (Ok (mkFrame true 1 false 1 [xff]), connect [] [] [[]]))
    by (vm_compute; reflexivity).
  assert (Hb : forall text, decode_utf8 [xff] <> Ok text)
    by (intros text; vm_compute; discriminate).
  exact (invalid_text_closes_1002 (connect [] [] [[x81; x01; xff]]) _ _
           eq_refl H eq_refl eq_refl Hb).
Defined.

(** ** Composition: a Ping between two fragments *)

(** X19: a Ping that arrives between the two fragments of a message is
    answered at once and the reassembly goes on: after the three passes the
    Pong and then the echo of the whole message have been sent, the handler
    has been called once with the two payloads concatenated, and no message
    is open. *)
Theorem ping_between_fragments
    (s s_r : state) (first ping last : frame) :
  fragmented_opcode s = None ->
  receive_frames 3 s = (Ok [first; ping; last], s_r) ->
  opcode first = 2
  \/ (opcode first = 1
      /\ exists text, decode_utf8 (payload first ++ payload last) = Ok text) ->
  fin first = false ->
  opcode ping = 9 ->
  opcode last = 0 ->
  fin last = true ->
  len (payload first ++ payload last) <= ssize_max ->
  passes 3 s
  = Some (mkState (extensions s) (subprotocols s) (sock_in s_r)
                  (sock_out s
                     ++ [wire_header 10 (len (payload ping)) ++ payload ping;
                         wire_header (opcode first)
                                     (len (payload first ++ payload last))
                           ++ payload first ++ payload last])
                  (sock_closed s) [] None
                  (delivered s
                     ++ [(opcode first, payload first ++ payload last)])).
Proof.
  intros Hnone Hrecv Hok Hfin Hping Hlast Hfin_last Hlen.
  unfold ssize_max in Hlen.
  apply receive_frames_cons in Hrecv. destruct Hrecv as (s1 & Hr1 & Hrecv).
  apply receive_frames_cons in Hrecv. destruct Hrecv as (s2 & Hr2 & Hrecv).
  apply receive_frames_cons in Hrecv. destruct Hrecv as (s3 & Hr3 & Hrecv).
  cbn [receive_frames] in Hrecv. unfold ret in Hrecv. injection Hrecv as <-.
  pose proof (receive_frame_state s s1 _ Hr1) as Hs1.
  pose proof (receive_frame_payload_bound s1 s2 ping Hr2) as [B1 B2].
  unfold ssize_max in B2.
  assert (Hop : opcode first = 1 \/ opcode first = 2)
    by (destruct Hok as [?|[? _]]; [right | left]; assumption).
  assert (Hn1 : fragmented_opcode s1 = None) by (rewrite Hs1; exact Hnone).
  cbn [passes].
  (* the first fragment *)
  rewrite (iteration_received s s1 first Hr1).
  rewrite (on_frame_start first s1 Hop Hfin Hn1).
  set (t1 := mkState (extensions s1) (subprotocols s1) (sock_in s1)
                     (sock_out s1) (sock_closed s1) (payload first)
                     (Some (opcode first)) (delivered s1)).
  (* the Ping *)
  assert (Hr2' : receive_frame t1 = (Ok ping, set_sock_in (sock_in s2) t1))
    by (apply (receive_frame_same_input s1 s2 t1 _ Hr2); reflexivity).
  rewrite (iteration_received t1 _ ping Hr2').
  rewrite (on_frame_ping ping _ Hping) by lia.
  set (t2 := set_sock_out
               (sock_out (set_sock_in (sock_in s2) t1)
                  ++ [wire_header 10 (len (payload ping)) ++ payload ping])
               (set_sock_in (sock_in s2) t1)).
  (* the last fragment *)
  assert (Hr3' : receive_frame t2 = (Ok last, set_sock_in (sock_in s3) t2))
    by (apply (receive_frame_same_input s2 s3 t2 _ Hr3); reflexivity).
  rewrite (iteration_received t2 _ last Hr3').
  rewrite (on_frame_final last (set_sock_in (sock_in s3) t2) (opcode first)
             Hlast Hfin_last eq_refl); [| exact Hok | cbn; lia].
  subst t2 t1. rewrite Hs1. cbn. rewrite <- app_assoc. reflexivity.
Qed.

Lemma ping_between_fragments_witness :
  passes 3 (connect [] [] [[x02; x01; x61; x89; x01; x70; x80; x01; x62]])
  = Some (mkState [] [] [[]] [[x8a; x01; x70]; [x82; x02; x61; x62]]
                  false [] None [(2, [x61; x62])]).
Proof.
  assert (Hl : len ([x61] ++ [x62]) <= ssize_max) by (vm_compute; discriminate).
  exact (ping_between_fragments
           (connect [] [] [[x02; x01; x61; x89; x01; x70; x80; x01; x62]])
           (connect [] [] [[]])
           (mkFrame false 2 false 1 [x61]) (mkFrame true 9 false 1 [x70])
           (mkFrame true 0 false 1 [x62])
           eq_refl eq_refl (or_introl eq_refl) eq_refl eq_refl eq_refl eq_refl Hl).
Defined.

(** ** One frame in, at most one frame out *)

Lemma sends_last_silent {A : Type} (m : M A) : silent m -> sends_last m.
Proof.
  intros S s. specialize (S s). destruct (m s) as [[a|e] s']; cbn [snd] in S.
  - left. exact S.
  - exact S.
Qed.

Lemma sends_last_bind_l {A B : Type} (m : M A) (f : A -> M B) :
  silent m -> (forall a, sends_last (f a)) -> sends_last (bind m f).
Proof.
  intros Sm Sf s. unfold bind. specialize (Sm s).
  destruct (m s) as [[a|e] s1]; cbn [snd] in Sm.
  - specialize (Sf a s1). destruct (f a s1) as [[b|e] s2]; rewrite <- Sm; exact Sf.
  - exact Sm.
Qed.

Lemma sends_last_bind_r {A B : Type} (m : M A) (f : A -> M B) :
  sends_last m -> (forall a, silent (f a)) -> (forall a, returns (f a)) ->
  sends_last (bind m f).
Proof.
  intros Sm Sf Rf s. unfold bind. specialize (Sm s).
  destruct (m s) as [[a|e] s1].
  - destruct (Rf a s1) as (b & s2 & E). pose proof (Sf a s1) as Q.
    rewrite E in Q |- *. cbn [snd] in Q. rewrite Q. exact Sm.
  - exact Sm.
Qed.

Lemma sends_last_send_frame (data : bytes) (op : Z) : sends_last (send_frame data op).
Proof.
  intros s. rewrite send_frame_eq.
  destruct ((0 <=? op) && (op <? 256) && (len data <? 2 ^ 64)); [|reflexivity].
  right. eexists. reflexivity.
Qed.

Lemma sends_last_send_close_frame (code : Z) (reason : str) :
  sends_last (send_close_frame code reason).
Proof.
  unfold send_close_frame.
  apply sends_last_bind_l; [apply silent_lift|]. intros h.
  apply sends_last_bind_l; [apply silent_lift|]. intros t.
  apply sends_last_send_frame.
Qed.

Lemma silent_modify (f : state -> state) :
  (forall s, sock_out (f s) = sock_out s) -> silent (modify f).
Proof. intros H s. apply H. Qed.

Lemma sends_last_handle_complete_message (op : Z) (message : bytes) :
  sends_last (handle_complete_message op message).
Proof.
  unfold handle_complete_message.
  apply sends_last_bind_l; [apply silent_modify; reflexivity|]. intros _.
  destruct (op =? 1).
  - apply sends_last_bind_l; [apply silent_lift|]. intros text.
    unfold send_text_frame. apply sends_last_bind_l; [apply silent_lift|].
    intros data. apply sends_last_send_frame.
  - destruct (op =? 2); [apply sends_last_send_frame|].
    apply sends_last_silent, silent_ret.
Qed.

Lemma returns_ret {A : Type} (a : A) : returns (ret a).
Proof. intros s. exists a, s. reflexivity. Qed.

Lemma returns_modify (f : state -> state) : returns (modify f).
Proof. intros s. exists tt, (f s). reflexivity. Qed.

Lemma returns_bind {A B : Type} (m : M A) (f : A -> M B) :
  returns m -> (forall a, returns (f a)) -> returns (bind m f).
Proof.
  intros Rm Rf s. unfold bind. destruct (Rm s) as (a & s1 & E). rewrite E.
  apply Rf.
Qed.

Lemma sends_last_dispatch (f : frame) : sends_last (dispatch f).
Proof.
  unfold dispatch.
  destruct (opcode f =? 0).
  { apply sends_last_bind_l; [apply silent_get|]. intros started.
    apply sends_last_bind_r.
    - unfold handle_continuation_frame.
      destruct started as [op|]; [|apply sends_last_silent, silent_raise].
      apply sends_last_bind_l; [apply silent_modify; reflexivity|]. intros _.
      destruct (fin f); [|apply sends_last_silent, silent_ret].
      apply sends_last_bind_l; [apply silent_get|]. intros message.
      apply sends_last_handle_complete_message.
    - intros _. apply silent_bind; [|intros; apply silent_ret].
      destruct (fin f); [|apply silent_ret].
      apply silent_bind; [apply silent_modify; reflexivity|]. intros _.
      apply silent_modify. reflexivity.
    - intros _. apply returns_bind; [|intros; apply returns_ret].
      destruct (fin f); [|apply returns_ret].
      apply returns_bind; [apply returns_modify | intros; apply returns_modify]. }
  destruct ((opcode f =? 1) || (opcode f =? 2)).
  { apply sends_last_bind_l; [apply silent_get|]. intros started.
    apply sends_last_bind_r.
    - unfold handle_data_frame.
      destruct started; [apply sends_last_silent, silent_raise|].
      destruct (fin f); [apply sends_last_handle_complete_message|].
      apply sends_last_silent, silent_ret.
    - intros _. apply silent_bind; [|intros; apply silent_ret].
      destruct (negb (fin f)); [|apply silent_ret].
      apply silent_bind; [apply silent_modify; reflexivity|]. intros _.
      apply silent_modify. reflexivity.
    - intros _. apply returns_bind; [|intros; apply returns_ret].
      destruct (negb (fin f)); [|apply returns_ret].
      apply returns_bind; [apply returns_modify | intros; apply returns_modify]. }
  destruct (opcode f =? 8).
  { apply sends_last_bind_r;
      [|intros; apply silent_ret | intros; apply returns_ret].
    unfold handle_close_frame. destruct (len (payload f) >=? 2).
    - apply sends_last_bind_l; [apply silent_lift|]. intros code.
      apply sends_last_bind_l; [apply silent_lift|]. intros reason.
      apply sends_last_send_close_frame.
    - apply sends_last_send_close_frame. }
  destruct (opcode f =? 9).
  { apply sends_last_bind_r;
      [|intros; apply silent_ret | intros; apply returns_ret].
    unfold handle_ping_frame, send_pong_frame. apply sends_last_send_frame. }
  destruct (opcode f =? 10).
  { apply sends_last_silent. apply silent_bind; [apply silent_ret|].
    intros; apply silent_ret. }
  apply sends_last_silent, silent_raise.
Qed.

(** X20: one frame in, at most one frame out.  Whatever a pass of the loop
    reads, it writes nothing or exactly one chunk. *)
Theorem pass_writes_at_most_once (s : state) :
  sock_out (snd (iteration s)) = sock_out s
  \/ exists chunk, sock_out (snd (iteration s)) = sock_out s ++ [chunk].
Proof.
  unfold iteration.
  destruct (receive_frame s) as [[f|e] s1] eqn:Hrecv.
  - assert (Ho : sock_out s1 = sock_out s)
      by (rewrite (receive_frame_state s s1 _ Hrecv); reflexivity).
    unfold on_frame. pose proof (sends_last_dispatch f s1) as D.
    destruct (dispatch f s1) as [[stop|e] s2]; cbn [snd].
    + rewrite <- Ho. exact D.
    + rewrite on_exception_eq. cbn [snd sock_out set_sock_out].
      right. rewrite D, Ho. eexists. reflexivity.
  - assert (Ho : sock_out s1 = sock_out s)
      by (rewrite (receive_frame_state s s1 _ Hrecv); reflexivity).
    rewrite on_exception_eq. cbn [snd sock_out set_sock_out].
    right. rewrite Ho. eexists. reflexivity.
Qed.

(** ** The size of the accept value *)

Lemma sha1_digest_length (m : bytes) : length (SHA1.digest m) = 20%nat.
Proof.
  unfold SHA1.digest.
  destruct (fold_left SHA1.compress
              (SHA1.blocks (length (SHA1.words (SHA1.pad m)))
                           (SHA1.words (SHA1.pad m))) SHA1.init)
    as [[[[h0 h1] h2] h3] h4].
  rewrite !length_app, !be_bytes_length. reflexivity.
Qed.

Lemma b64encode_20 (b : bytes) :
  length b = 20%nat -> length (Base64.b64encode b) = 28%nat.
Proof.
  intros H.
  do 20 (destruct b as [|? b]; [discriminate H|]).
  destruct b; [reflexivity | discriminate H].
Qed.

(** X21: [generate_accept_key] returns for every key that can be encoded
    (so for every key cut out of a decoded request), and the accept value is
    always 28 ASCII characters. *)
Theorem accept_key_is_28_ascii (key : str) :
  Forall encodable key ->
  exists accept,
    generate_accept_key key = Ok accept
    /\ length accept = 28%nat
    /\ Forall (fun c => 0 <= c < 128) accept.
Proof.
  intros Hkey.
  destruct (generate_accept_key_ok key Hkey) as (accept & Hacc & Hascii).
  exists accept. split; [exact Hacc|]. split; [|exact Hascii].
  unfold generate_accept_key in Hacc.
  destruct (encode_utf8 (key ++ GUID)) as [encoded|e]; cbn [rbind] in Hacc;
    [|discriminate].
  rewrite (decode_ascii _ (b64encode_ascii (SHA1.digest encoded))) in Hacc.
  injection Hacc as <-.
  rewrite length_map. apply b64encode_20, sha1_digest_length.
Qed.

Lemma accept_key_is_28_ascii_witness :
  exists accept,
    generate_accept_key (lit "x3JJHMbDL1EzLkh9GBhXDw==") = Ok accept
    /\ length accept = 28%nat
    /\ Forall (fun c => 0 <= c < 128) accept.
Proof.
  apply (accept_key_is_28_ascii (lit "x3JJHMbDL1EzLkh9GBhXDw==")).
  apply Forall_ascii_lit. vm_compute. reflexivity.
Defined.

(** X22: what [receive_frame] guarantees about the payload.  A frame it
    returns never holds more bytes than it declares, and the declared length
    fits a bytes object; the two lengths need not be equal. *)
Theorem received_payload_within_declared (s s' : state) (f : frame) :
  receive_frame s = (Ok f, s') ->
  0 <= len (payload f) <= payload_length f
  /\ payload_length f <= ssize_max
  /\ s' = set_sock_in (sock_in s') s.
Proof.
  intros H. destruct (receive_frame_payload_bound s s' f H) as [B1 B2].
  split; [split; [apply len_nonneg | exact B1]|].
  split; [exact B2 | apply (receive_frame_state s s' _ H)].
Qed.

Lemma received_payload_within_declared_witness :
  0 <= len [x61; x62] <= 5
  /\ 5 <= ssize_max
  /\ connect [] [] [[]; [x63]]
     = set_sock_in (sock_in (connect [] [] [[]; [x63]]))
                   (connect [] [] [[x81; x05; x61; x62]; [x63]]).
Proof.
  assert (H : receive_frame (connect [] [] [[x81; x05; x61; x62]; [x63]])
              = (Ok (mkFrame true 1 false 5 [x61; x62]),
                 connect [] [] [[]; [x63]])) by (vm_compute; reflexivity).
  exact (received_payload_within_declared _ _ _ H).
Defined.
